(** * SafeRoute backend: hazard lifecycle, audit trail and driver read path

    A shallow embedding of the SafeRoute FastAPI backend
    (models.py, schemas.py, auth.py, hazards_routes.py, authority_routes.py)
    and the properties of its hazard state machine.

    Conventions of the embedding
    - a naive UTC [datetime] is the number of microseconds since the epoch;
    - a table is the list of its rows, in insertion order;
    - a request handler is a computation in the monad [M]: it reads the
      committed database, the clock and the uuid generator from a [World],
      and either returns a value or raises;
    - the ORM hands a loaded row back as an object made of its mapped
      columns plus the instance attributes the handler sets on it;
      only mapped columns are written by a commit;
    - an enum column is read back as a member of its enum class: [str] of
      a status member is its qualified name, and a row whose stored
      hazard type is no member of [models.HazardType] cannot be loaded;
    - an integer bound to a statement must fit SQLite's 64-bit INTEGER. *)

From Stdlib Require Import ZArith List String Ascii Bool Lia QArith.
From Stdlib Require Import Sorted Permutation Relations DecimalString.
Import ListNotations.
Local Open Scope string_scope.
Local Open Scope Z_scope.

(* ------------------------------------------------------------------ *)
(** ** Python values *)

Definition datetime := Z.

Definition MICROSECONDS_PER_DAY : Z := 86400000000.
Definition MICROSECONDS_PER_HOUR : Z := 3600000000.

(** [timedelta.days] of the difference [a - b] of two datetimes: a
    timedelta is normalised with the days rounded towards minus infinity. *)
Definition timedelta_days (a b : datetime) : Z := (a - b) / MICROSECONDS_PER_DAY.

(** A Python float as far as comparisons with a finite bound go. *)
Inductive pyfloat :=
| Finite (q : Q)
| PosInf
| NegInf
| NaN.

Definition float_ge (x : pyfloat) (bound : Q) : bool :=
  match x with
  | Finite q => Qle_bool bound q
  | PosInf => true
  | NegInf | NaN => false
  end.

Definition float_le (x : pyfloat) (bound : Q) : bool :=
  match x with
  | Finite q => Qle_bool q bound
  | NegInf => true
  | PosInf | NaN => false
  end.

(** Values an attribute of an ORM object can hold. *)
Inductive PyVal :=
| PyNone
| PyStr (s : string)
| PyBool (b : bool)
| PyFloat (f : pyfloat)
| PyDateTime (t : datetime).

Definition py_opt {A} (inj : A -> PyVal) (o : option A) : PyVal :=
  match o with
  | Some a => inj a
  | None => PyNone
  end.

(** Instance attributes set on an object, latest first. *)
Definition attrs := list (string * PyVal).

Fixpoint attrs_get (name : string) (d : attrs) : option PyVal :=
  match d with
  | [] => None
  | (k, v) :: rest => if String.eqb k name then Some v else attrs_get name rest
  end.

(** [a or b] on an optional string: [None] and the empty string are falsy. *)
Definition str_or (a : option string) (b : string) : string :=
  match a with
  | Some s => if String.eqb s EmptyString then b else s
  | None => b
  end.

(* ------------------------------------------------------------------ *)
(** ** models.py *)

Inductive HazardStatus :=
| REPORTED
| PENDING_AUTHORITY
| VERIFIED
| RESOLVED.

Definition HazardStatus_value (s : HazardStatus) : string :=
  match s with
  | REPORTED => "REPORTED"
  | PENDING_AUTHORITY => "PENDING_AUTHORITY"
  | VERIFIED => "VERIFIED"
  | RESOLVED => "RESOLVED"
  end.

Definition HazardStatus_eqb (a b : HazardStatus) : bool :=
  match a, b with
  | REPORTED, REPORTED
  | PENDING_AUTHORITY, PENDING_AUTHORITY
  | VERIFIED, VERIFIED
  | RESOLVED, RESOLVED => true
  | _, _ => false
  end.

(** What an [SQLEnum(HazardStatus)] column keeps of a string assigned to it. *)
Definition HazardStatus_lookup (s : string) : option HazardStatus :=
  if String.eqb s "REPORTED" then Some REPORTED
  else if String.eqb s "PENDING_AUTHORITY" then Some PENDING_AUTHORITY
  else if String.eqb s "VERIFIED" then Some VERIFIED
  else if String.eqb s "RESOLVED" then Some RESOLVED
  else None.

(** The name of a member, which for this class is also its value. *)
Definition HazardStatus_name (s : HazardStatus) : string :=
  match s with
  | REPORTED => "REPORTED"
  | PENDING_AUTHORITY => "PENDING_AUTHORITY"
  | VERIFIED => "VERIFIED"
  | RESOLVED => "RESOLVED"
  end.

(** [str(member)] for a member of the [(str, Enum)] class [HazardStatus]:
    the class name, a dot and the member name. *)
Definition HazardStatus_str (s : HazardStatus) : string :=
  "HazardStatus." ++ HazardStatus_name s.

(** [models.HazardType] *)
Inductive HazardType :=
| ACCIDENT
| POTHOLE
| ROADBLOCK.

Definition HazardType_name (t : HazardType) : string :=
  match t with
  | ACCIDENT => "ACCIDENT"
  | POTHOLE => "POTHOLE"
  | ROADBLOCK => "ROADBLOCK"
  end.

(** Reading an [SQLEnum(HazardType)] column back: the stored string must
    name a member. *)
Definition HazardType_lookup (s : string) : option HazardType :=
  if String.eqb s "ACCIDENT" then Some ACCIDENT
  else if String.eqb s "POTHOLE" then Some POTHOLE
  else if String.eqb s "ROADBLOCK" then Some ROADBLOCK
  else None.

Inductive AuthorityLevel :=
| LOCAL
| STATE
| NATIONAL.

Definition AuthorityLevel_value (l : AuthorityLevel) : string :=
  match l with
  | LOCAL => "LOCAL"
  | STATE => "STATE"
  | NATIONAL => "NATIONAL"
  end.

Module Hazard.
(** The mapped columns of table [hazards]. *)
Record t := mk {
  id : string;
  hazard_type : string;
  latitude : pyfloat;
  longitude : pyfloat;
  observed_at : option datetime;
  status : HazardStatus;
  created_at : datetime;
  updated_at : datetime;
  resolved_at : option datetime
}.

Definition set_status (h : t) (s : HazardStatus) : t :=
  mk (id h) (hazard_type h) (latitude h) (longitude h) (observed_at h)
     s (created_at h) (updated_at h) (resolved_at h).

Definition set_updated_at (h : t) (now : datetime) : t :=
  mk (id h) (hazard_type h) (latitude h) (longitude h) (observed_at h)
     (status h) (created_at h) now (resolved_at h).

(** Reading a mapped column by name; [None] when the class maps no such
    column. *)
Definition column (h : t) (name : string) : option PyVal :=
  if String.eqb name "id" then Some (PyStr (id h))
  else if String.eqb name "hazard_type" then Some (PyStr (hazard_type h))
  else if String.eqb name "latitude" then Some (PyFloat (latitude h))
  else if String.eqb name "longitude" then Some (PyFloat (longitude h))
  else if String.eqb name "observed_at" then Some (py_opt PyDateTime (observed_at h))
  else if String.eqb name "status" then Some (PyStr (HazardStatus_value (status h)))
  else if String.eqb name "created_at" then Some (PyDateTime (created_at h))
  else if String.eqb name "updated_at" then Some (PyDateTime (updated_at h))
  else if String.eqb name "resolved_at" then Some (py_opt PyDateTime (resolved_at h))
  else None.
End Hazard.

Module Authority.
Record t := mk {
  id : string;
  name : string;
  email : string;
  phone : option string;
  level : AuthorityLevel;
  jurisdiction : string;
  is_active : bool;
  jwt_secret : string;
  created_at : datetime;
  updated_at : datetime
}.
End Authority.

Module AuthorityVerification.
(** The mapped columns of table [authority_verifications]. *)
Record t := mk {
  id : string;
  hazard_id : string;
  authority_id : string;
  token : string;
  token_expires_at : datetime;
  is_verified : bool;
  verified_at : option datetime;
  rejection_reason : option string;
  created_at : datetime;
  updated_at : datetime
}.

Definition column (v : t) (name : string) : option PyVal :=
  if String.eqb name "id" then Some (PyStr (id v))
  else if String.eqb name "hazard_id" then Some (PyStr (hazard_id v))
  else if String.eqb name "authority_id" then Some (PyStr (authority_id v))
  else if String.eqb name "token" then Some (PyStr (token v))
  else if String.eqb name "token_expires_at" then Some (PyDateTime (token_expires_at v))
  else if String.eqb name "is_verified" then Some (PyBool (is_verified v))
  else if String.eqb name "verified_at" then Some (py_opt PyDateTime (verified_at v))
  else if String.eqb name "rejection_reason" then Some (py_opt PyStr (rejection_reason v))
  else if String.eqb name "created_at" then Some (PyDateTime (created_at v))
  else if String.eqb name "updated_at" then Some (PyDateTime (updated_at v))
  else None.

(** [is_token_expired]: the one place that reads the expiry column. *)
Definition is_token_expired (v : t) (now : datetime) : bool :=
  token_expires_at v <? now.
End AuthorityVerification.

Module AuditLog.
Record t := mk {
  id : string;
  hazard_id : string;
  authority_id : option string;
  action : string;
  old_status : option HazardStatus;
  new_status : option HazardStatus;
  notes : option string;
  timestamp : datetime
}.
End AuditLog.

(** The persisted state: one list of rows per table. *)
Record Db := mkDb {
  hazards : list Hazard.t;
  authorities : list Authority.t;
  authority_verifications : list AuthorityVerification.t;
  audit_logs : list AuditLog.t
}.

(* ------------------------------------------------------------------ *)
(** ** Request handlers as computations *)

Inductive Exception :=
| HTTPException (status_code : Z) (detail : string)
| ValidationError (msg : string)
| AttributeError (cls attr : string)
| TypeError (msg : string)
| LookupError (value : string)
| OverflowError (msg : string).

Inductive Result (A : Type) :=
| Ok (a : A)
| Raise (e : Exception).
Arguments Ok {A} a.
Arguments Raise {A} e.

(** What a handler runs against: the committed database, the readings
    [datetime.utcnow()] will give (the k-th call returns [clock k]) and the
    strings [uuid.uuid4()] will give. *)
Record World := mkWorld {
  db : Db;
  clock : nat -> datetime;
  ticks : nat;
  uuid_source : nat -> string;
  uuid_drawn : nat
}.

Definition M (A : Type) : Type := World -> Result A * World.

Definition ret {A} (a : A) : M A := fun w => (Ok a, w).

Definition raise {A} (e : Exception) : M A := fun w => (Raise e, w).

Definition bind {A B} (m : M A) (k : A -> M B) : M B :=
  fun w =>
    match m w with
    | (Ok a, w') => k a w'
    | (Raise e, w') => (Raise e, w')
    end.

Notation "x <- m ;; k" := (bind m (fun x => k))
  (at level 61, m at next level, right associativity).
Notation "m ;;; k" := (bind m (fun _ => k))
  (at level 61, right associativity).

Definition set_db (w : World) (d : Db) : World :=
  mkWorld d (clock w) (ticks w) (uuid_source w) (uuid_drawn w).

Definition get_db : M Db := fun w => (Ok (db w), w).

Definition put_db (d : Db) : M unit := fun w => (Ok tt, set_db w d).

(** [datetime.utcnow()] *)
Definition utcnow : M datetime :=
  fun w => (Ok (clock w (ticks w)),
            mkWorld (db w) (clock w) (S (ticks w)) (uuid_source w) (uuid_drawn w)).

(** [str(uuid.uuid4())] *)
Definition uuid4 : M string :=
  fun w => (Ok (uuid_source w (uuid_drawn w)),
            mkWorld (db w) (clock w) (ticks w) (uuid_source w) (S (uuid_drawn w))).

Fixpoint mapM {A B} (f : A -> M B) (l : list A) : M (list B) :=
  match l with
  | [] => ret []
  | a :: rest =>
      b <- f a ;;
      bs <- mapM f rest ;;
      ret (b :: bs)
  end.

(** Running a computation and keeping its outcome, raised or returned. *)
Definition attempt {A} (m : M A) : M (Result A) :=
  fun w => let (r, w') := m w in (Ok r, w').

(* ------------------------------------------------------------------ *)
(** ** The ORM session *)

(** A loaded [Hazard] instance: its row and the attributes set on the
    instance that the class does not map. *)
Record HazardObj := mkHazardObj {
  row : Hazard.t;
  unmapped : attrs
}.

(** Turning a fetched row into an instance: the stored hazard type is
    looked up in [models.HazardType], a string that names no member raises
    LookupError. The instance dictionary starts empty. *)
Definition load_hazard (h : Hazard.t) : M HazardObj :=
  match HazardType_lookup (Hazard.hazard_type h) with
  | Some _ => ret (mkHazardObj h [])
  | None => raise (LookupError (Hazard.hazard_type h))
  end.

(** [getattr(hazard, name)]; [None] stands for AttributeError. *)
Definition hazard_getattr (o : HazardObj) (name : string) : option PyVal :=
  match Hazard.column (row o) name with
  | Some v => Some v
  | None => attrs_get name (unmapped o)
  end.

(** [hazard.status = value] with a status string. *)
Definition hazard_set_status (o : HazardObj) (value : string) : HazardObj :=
  match HazardStatus_lookup value with
  | Some s => mkHazardObj (Hazard.set_status (row o) s) (unmapped o)
  | None => o
  end.

(** [hazard.verified_at = t]: class [Hazard] maps no column of that name,
    so the assignment lands in the instance dictionary. *)
Definition hazard_set_verified_at (o : HazardObj) (t : datetime) : HazardObj :=
  mkHazardObj (row o) (("verified_at", PyDateTime t) :: unmapped o).

(** A loaded [AuthorityVerification] instance. *)
Record VerificationObj := mkVerificationObj {
  vrow : AuthorityVerification.t;
  vunmapped : attrs
}.

Definition load_verification (v : AuthorityVerification.t) : VerificationObj :=
  mkVerificationObj v [].

Definition verification_getattr (o : VerificationObj) (name : string) : M PyVal :=
  match AuthorityVerification.column (vrow o) name with
  | Some v => ret v
  | None =>
      match attrs_get name (vunmapped o) with
      | Some v => ret v
      | None => raise (AttributeError "AuthorityVerification" name)
      end
  end.

Definition verification_setattr (o : VerificationObj) (name : string) (v : PyVal)
  : VerificationObj :=
  mkVerificationObj (vrow o) ((name, v) :: vunmapped o).

(** [db.query(Hazard).filter(Hazard.id == hazard_id).first()] *)
Definition query_hazard_first (hazard_id : string) : M (option HazardObj) :=
  d <- get_db ;;
  match find (fun h => String.eqb (Hazard.id h) hazard_id) (hazards d) with
  | None => ret None
  | Some h =>
      hazard <- load_hazard h ;;
      ret (Some hazard)
  end.

(** [db.query(Authority).filter(Authority.id == authority_id).first()] *)
Definition query_authority_first (authority_id : string) : M (option Authority.t) :=
  d <- get_db ;;
  ret (find (fun a => String.eqb (Authority.id a) authority_id) (authorities d)).

(** [db.query(AuthorityVerification).filter(hazard_id == .., token == ..).first()] *)
Definition query_verification_first (hazard_id token : string)
  : M (option VerificationObj) :=
  d <- get_db ;;
  ret (option_map load_verification
         (find (fun v => String.eqb (AuthorityVerification.hazard_id v) hazard_id
                         && String.eqb (AuthorityVerification.token v) token)
               (authority_verifications d))).

(** [UPDATE hazards SET ... WHERE id = r.id] *)
Definition replace_by_id (r : Hazard.t) (rows : list Hazard.t) : list Hazard.t :=
  map (fun h => if String.eqb (Hazard.id h) (Hazard.id r) then r else h) rows.

(** The UPDATE a commit flushes for a modified [Hazard]: the mapped columns
    are written under the primary key and [updated_at] takes its [onupdate]
    value. Unmapped instance attributes are not written. *)
Definition flush_hazard_update (o : HazardObj) : M unit :=
  now <- utcnow ;;
  d <- get_db ;;
  let r := Hazard.set_updated_at (row o) now in
  put_db (mkDb (replace_by_id r (hazards d))
               (authorities d) (authority_verifications d) (audit_logs d)).

(** The INSERT a commit flushes for an added [AuditLog]. *)
Definition flush_audit_log_insert (a : AuditLog.t) : M unit :=
  d <- get_db ;;
  put_db (mkDb (hazards d) (authorities d) (authority_verifications d)
               (audit_logs d ++ [a])).

(** [db.refresh(hazard)]: the mapped columns are read again, the instance
    dictionary keeps what the class does not map. *)
Definition refresh_hazard (o : HazardObj) : M HazardObj :=
  d <- get_db ;;
  match find (fun h => String.eqb (Hazard.id h) (Hazard.id (row o))) (hazards d) with
  | Some r =>
      loaded <- load_hazard r ;;
      ret (mkHazardObj (row loaded) (unmapped o))
  | None => ret o
  end.

(** [ORDER BY created_at DESC] *)
Fixpoint insert_newest_first (h : Hazard.t) (l : list Hazard.t) : list Hazard.t :=
  match l with
  | [] => [h]
  | x :: rest =>
      if Hazard.created_at x <=? Hazard.created_at h then h :: l
      else x :: insert_newest_first h rest
  end.

Definition order_by_created_at_desc (l : list Hazard.t) : list Hazard.t :=
  fold_right insert_newest_first [] l.

Definition INT64_MIN : Z := -9223372036854775808.
Definition INT64_MAX : Z := 9223372036854775807.

(** What [LIMIT n] keeps on the SQLite engine configured in db.py: a
    negative bound means no bound. *)
Definition limit_rows {A} (limit : Z) (rows : list A) : list A :=
  if limit <? 0 then rows else firstn (Z.to_nat limit) rows.

(** [.limit(limit)] at execution: the bound is passed to SQLite as an
    INTEGER parameter, which a Python int outside the signed 64-bit range
    cannot be. *)
Definition sql_limit {A} (limit : Z) (rows : list A) : M (list A) :=
  if (limit <? INT64_MIN) || (INT64_MAX <? limit)
  then raise (OverflowError "Python int too large to convert to SQLite INTEGER")
  else ret (limit_rows limit rows).

(* ------------------------------------------------------------------ *)
(** ** hazards_routes.py: the driver read path *)

(** [GET /hazards/verified] *)
Definition get_verified_hazards_for_driver (limit : Z) : M (list Hazard.t) :=
  d <- get_db ;;
  selected <- sql_limit limit
                (order_by_created_at_desc
                   (filter (fun h => HazardStatus_eqb (Hazard.status h) VERIFIED)
                           (hazards d))) ;;
  hazards <- mapM load_hazard selected ;;
  ret (map row hazards).

(* ------------------------------------------------------------------ *)
(** ** schemas.py *)

Module Schemas.

Inductive HazardType :=
| ACCIDENT
| POTHOLE
| ROADBLOCK
| DEBRIS
| REPORTED.

Definition HazardType_value (t : HazardType) : string :=
  match t with
  | ACCIDENT => "ACCIDENT"
  | POTHOLE => "POTHOLE"
  | ROADBLOCK => "ROADBLOCK"
  | DEBRIS => "DEBRIS"
  | REPORTED => "REPORTED"
  end.

(** The body of [POST /hazards/report] once its fields are read;
    [observed_at] may be left out. *)
Record ReportBody := mkReportBody {
  body_hazard_type : HazardType;
  body_latitude : pyfloat;
  body_longitude : pyfloat;
  body_observed_at : option datetime
}.

Record HazardReportRequest := mkHazardReportRequest {
  hazard_type : HazardType;
  latitude : pyfloat;
  longitude : pyfloat;
  observed_at : datetime
}.

(** [Field(..., ge=-90, le=90)] *)
Definition latitude_in_range (x : pyfloat) : bool :=
  float_ge x (Qmake (-90) 1) && float_le x (Qmake 90 1).

(** [Field(..., ge=-180, le=180)] *)
Definition longitude_in_range (x : pyfloat) : bool :=
  float_ge x (Qmake (-180) 1) && float_le x (Qmake 180 1).

(** [HazardReportRequest.validate_observed_at] *)
Definition validate_observed_at (v : datetime) : M datetime :=
  now1 <- utcnow ;;
  if v >? now1 then raise (ValidationError "observed_at cannot be in the future")
  else
    now2 <- utcnow ;;
    if timedelta_days now2 v >? 1
    then raise (ValidationError "observed_at must be within last 24 hours")
    else ret v.

(** Building a [HazardReportRequest] from the body. Every field is
    evaluated, also after an earlier one has failed: the two coordinate
    constraints, then [observed_at], whose validator runs on a given value
    and whose default ([datetime.utcnow()], not validated) is computed
    otherwise. The errors of all fields are reported together. *)
Definition HazardReportRequest_validate (body : ReportBody) : M HazardReportRequest :=
  let latitude_errors :=
    if latitude_in_range (body_latitude body) then [] else ["latitude"] in
  let longitude_errors :=
    if longitude_in_range (body_longitude body) then [] else ["longitude"] in
  observed <- attempt match body_observed_at body with
                      | Some v => validate_observed_at v
                      | None => utcnow
                      end ;;
  match (latitude_errors ++ longitude_errors)%list, observed with
  | [], Ok observed_at =>
      ret (mkHazardReportRequest (body_hazard_type body) (body_latitude body)
                                 (body_longitude body) observed_at)
  | errors, Ok _ => raise (ValidationError (String.concat "; " errors))
  | errors, Raise (ValidationError msg) =>
      raise (ValidationError (String.concat "; " (errors ++ [msg])))
  | _, Raise e => raise e
  end.

Record AuthorityVerificationRequest := mkAuthorityVerificationRequest {
  notes : option string
}.

Record HazardDetailResponse := mkHazardDetailResponse {
  detail_id : string;
  detail_hazard_type : string;
  detail_latitude : pyfloat;
  detail_longitude : pyfloat;
  detail_observed_at : datetime;
  detail_status : HazardStatus;
  detail_verified_at : option datetime;
  detail_created_at : datetime;
  detail_updated_at : datetime
}.

(** [HazardDetailResponse] read from the attributes of an ORM object:
    [observed_at] is required, [verified_at] defaults to [None] when the
    object has no such attribute. *)
Definition HazardDetailResponse_from_attributes (o : HazardObj)
  : M HazardDetailResponse :=
  match Hazard.observed_at (row o) with
  | None => raise (ValidationError "observed_at")
  | Some observed =>
      ret (mkHazardDetailResponse
             (Hazard.id (row o)) (Hazard.hazard_type (row o))
             (Hazard.latitude (row o)) (Hazard.longitude (row o))
             observed (Hazard.status (row o))
             match hazard_getattr o "verified_at" with
             | Some (PyDateTime t) => Some t
             | _ => None
             end
             (Hazard.created_at (row o)) (Hazard.updated_at (row o)))
  end.

End Schemas.

(* ------------------------------------------------------------------ *)
(** ** hazards_routes.py: reporting *)

(** The INSERT a commit flushes for a new [Hazard]: the column defaults
    give the id and both timestamps, [resolved_at] stays NULL. *)
Definition flush_hazard_insert (hazard_type : string) (latitude longitude : pyfloat)
    (observed_at : option datetime) (status : HazardStatus) : M Hazard.t :=
  new_id <- uuid4 ;;
  created <- utcnow ;;
  updated <- utcnow ;;
  d <- get_db ;;
  let r := Hazard.mk new_id hazard_type latitude longitude observed_at status
                     created updated None in
  put_db (mkDb (hazards d ++ [r]) (authorities d) (authority_verifications d)
               (audit_logs d)) ;;;
  ret r.

(** The background task: a placeholder in the source. *)
Definition notify_authorities_of_hazard (hazard_id hazard_type : string)
    (latitude longitude : pyfloat) : M unit :=
  ret tt.

Record ReportAck := mkReportAck {
  ack_status : string;
  ack_message : string;
  ack_hazard_id : string;
  ack_timestamp : datetime
}.

(** [POST /hazards/report], the handler body: the row is committed, then
    [db.refresh] loads it again. *)
Definition report_hazard (report : Schemas.HazardReportRequest) : M ReportAck :=
  inserted <- flush_hazard_insert
                (Schemas.HazardType_value (Schemas.hazard_type report))
                (Schemas.latitude report) (Schemas.longitude report)
                (Some (Schemas.observed_at report)) PENDING_AUTHORITY ;;
  refreshed <- load_hazard inserted ;;
  let hazard := row refreshed in
  notify_authorities_of_hazard (Hazard.id hazard) (Hazard.hazard_type hazard)
    (Schemas.latitude report) (Schemas.longitude report) ;;;
  now <- utcnow ;;
  ret (mkReportAck "received" "Hazard report sent to safety team"
                   (Hazard.id hazard) now).

(** [POST /hazards/report] as the framework serves it: the body is
    validated first, the handler runs only on a valid request. *)
Definition report_endpoint (body : Schemas.ReportBody) : M ReportAck :=
  report <- Schemas.HazardReportRequest_validate body ;;
  report_hazard report.

(* ------------------------------------------------------------------ *)
(** ** auth.py *)

Definition payload := list (string * string).

Fixpoint payload_get (key : string) (p : payload) : option string :=
  match p with
  | [] => None
  | (k, v) :: rest => if String.eqb k key then Some v else payload_get key rest
  end.

(** The verdict of [jwt.decode] on a bearer token. *)
Inductive JwtOutcome :=
| JwtPayload (p : payload)
| JwtExpiredSignature
| JwtInvalidToken.

Definition HTTP_400_BAD_REQUEST : Z := 400.
Definition HTTP_401_UNAUTHORIZED : Z := 401.
Definition HTTP_403_FORBIDDEN : Z := 403.
Definition HTTP_404_NOT_FOUND : Z := 404.

Definition decode_access_token (jwt_decode : string -> JwtOutcome) (token : string)
  : M payload :=
  match jwt_decode token with
  | JwtPayload p => ret p
  | JwtExpiredSignature =>
      raise (HTTPException HTTP_401_UNAUTHORIZED "Token has expired")
  | JwtInvalidToken =>
      raise (HTTPException HTTP_401_UNAUTHORIZED "Could not validate credentials")
  end.

Definition get_current_authority (jwt_decode : string -> JwtOutcome)
    (credentials : string) : M Authority.t :=
  let token := credentials in
  payload <- decode_access_token jwt_decode token ;;
  match payload_get "authority_id" payload with
  | None =>
      raise (HTTPException HTTP_401_UNAUTHORIZED "Invalid authentication credentials")
  | Some authority_id =>
      authority <- query_authority_first authority_id ;;
      match authority with
      | None => raise (HTTPException HTTP_401_UNAUTHORIZED "Authority not found")
      | Some authority => ret authority
      end
  end.

(** Defined in auth.py; no route depends on it. *)
Definition get_current_verifier (authority : Authority.t) : M Authority.t :=
  if negb (existsb (String.eqb (Authority.jurisdiction authority))
                   [AuthorityLevel_value STATE; AuthorityLevel_value LOCAL])
  then raise (HTTPException HTTP_403_FORBIDDEN
                "Insufficient permissions. VERIFIER role required.")
  else ret authority.

(* ------------------------------------------------------------------ *)
(** ** authority_routes.py *)

(** [str(hazard.status)]: the attribute of a loaded hazard is a member of
    [HazardStatus]. *)
Definition str_status (hazard : HazardObj) : string :=
  HazardStatus_str (Hazard.status (row hazard)).

(** [GET /authority/hazards] *)
Definition get_hazards_for_authority (status_filter : option HazardStatus)
    (authority : Authority.t) (limit : Z) : M (list Schemas.HazardDetailResponse) :=
  d <- get_db ;;
  let query :=
    match status_filter with
    | Some wanted =>
        filter (fun h => String.eqb (HazardStatus_value (Hazard.status h))
                                    (HazardStatus_value wanted))
               (hazards d)
    | None => hazards d
    end in
  selected <- sql_limit limit (order_by_created_at_desc query) ;;
  hazards <- mapM load_hazard selected ;;
  mapM Schemas.HazardDetailResponse_from_attributes hazards.

(** [POST /authority/hazards/{hazard_id}/verify] *)
Definition verify_hazard (hazard_id : string)
    (request : Schemas.AuthorityVerificationRequest) (authority : Authority.t)
  : M HazardObj :=
  found <- query_hazard_first hazard_id ;;
  match found with
  | None =>
      raise (HTTPException HTTP_404_NOT_FOUND ("Hazard " ++ hazard_id ++ " not found"))
  | Some hazard =>
      let current_status := str_status hazard in
      if negb (String.eqb current_status (HazardStatus_value PENDING_AUTHORITY))
      then raise (HTTPException HTTP_400_BAD_REQUEST
                    ("Hazard is in " ++ current_status ++ " status, cannot verify"))
      else
        let old_status := current_status in
        let hazard := hazard_set_status hazard (HazardStatus_value VERIFIED) in
        stamped <- utcnow ;;
        let hazard := hazard_set_verified_at hazard stamped in
        audit_id <- uuid4 ;;
        logged <- utcnow ;;
        let audit_log :=
          AuditLog.mk audit_id (Hazard.id (row hazard))
            (Some (Authority.id authority)) "VERIFY"
            (HazardStatus_lookup old_status)
            (HazardStatus_lookup (HazardStatus_value VERIFIED))
            (Some (str_or (Schemas.notes request)
                          ("Verified by " ++ Authority.email authority)))
            logged in
        flush_hazard_update hazard ;;;
        flush_audit_log_insert audit_log ;;;
        refresh_hazard hazard
  end.

(** [POST /authority/hazards/{hazard_id}/reject] *)
Definition reject_hazard (hazard_id : string)
    (request : Schemas.AuthorityVerificationRequest) (authority : Authority.t)
  : M HazardObj :=
  found <- query_hazard_first hazard_id ;;
  match found with
  | None =>
      raise (HTTPException HTTP_404_NOT_FOUND ("Hazard " ++ hazard_id ++ " not found"))
  | Some hazard =>
      let current_status := str_status hazard in
      if negb (String.eqb current_status (HazardStatus_value PENDING_AUTHORITY))
      then raise (HTTPException HTTP_400_BAD_REQUEST
                    ("Hazard is in " ++ current_status ++ " status, cannot reject"))
      else
        let old_status := current_status in
        let hazard := hazard_set_status hazard (HazardStatus_value RESOLVED) in
        audit_id <- uuid4 ;;
        logged <- utcnow ;;
        let audit_log :=
          AuditLog.mk audit_id (Hazard.id (row hazard))
            (Some (Authority.id authority)) "REJECT"
            (HazardStatus_lookup old_status)
            (HazardStatus_lookup (HazardStatus_value RESOLVED))
            (Some (str_or (Schemas.notes request)
                          ("Rejected by " ++ Authority.email authority)))
            logged in
        flush_hazard_update hazard ;;;
        flush_audit_log_insert audit_log ;;;
        refresh_hazard hazard
  end.

(** [POST /authority/hazards/{hazard_id}/resolve] *)
Definition resolve_hazard (hazard_id : string)
    (request : Schemas.AuthorityVerificationRequest) (authority : Authority.t)
  : M HazardObj :=
  found <- query_hazard_first hazard_id ;;
  match found with
  | None =>
      raise (HTTPException HTTP_404_NOT_FOUND ("Hazard " ++ hazard_id ++ " not found"))
  | Some hazard =>
      let current_status := str_status hazard in
      if negb (String.eqb current_status (HazardStatus_value VERIFIED))
      then raise (HTTPException HTTP_400_BAD_REQUEST
                    ("Hazard is in " ++ current_status
                     ++ " status, cannot resolve (must be VERIFIED)"))
      else
        let old_status := current_status in
        let hazard := hazard_set_status hazard (HazardStatus_value RESOLVED) in
        audit_id <- uuid4 ;;
        logged <- utcnow ;;
        let audit_log :=
          AuditLog.mk audit_id (Hazard.id (row hazard))
            (Some (Authority.id authority)) "RESOLVE"
            (HazardStatus_lookup old_status)
            (HazardStatus_lookup (HazardStatus_value RESOLVED))
            (Some (str_or (Schemas.notes request)
                          ("Resolved by " ++ Authority.email authority)))
            logged in
        flush_hazard_update hazard ;;;
        flush_audit_log_insert audit_log ;;;
        refresh_hazard hazard
  end.

(** [x is True] *)
Definition py_is_True (v : PyVal) : bool :=
  match v with
  | PyBool true => true
  | _ => false
  end.

(** [now > x] for a datetime [now]. *)
Definition datetime_gt (now : datetime) (x : PyVal) : M bool :=
  match x with
  | PyDateTime t => ret (now >? t)
  | _ => raise (TypeError "'>' not supported between these instances")
  end.

Record TokenAck := mkTokenAck {
  token_ack_status : string;
  token_ack_message : string;
  token_ack_hazard_id : string;
  token_ack_authority_id : string;
  token_ack_authority_email : string;
  token_ack_authority_jurisdiction : string
}.

(** [POST /authority/verify-token]. The handler reads and writes the
    attributes [used], [expires_at] and [used_at] of the verification
    record; the commit has no mapped column to write. *)
Definition verify_authority_token (hazard_id token : string) : M TokenAck :=
  found <- query_verification_first hazard_id token ;;
  match found with
  | None => raise (HTTPException HTTP_404_NOT_FOUND "Invalid verification token")
  | Some verification =>
      used <- verification_getattr verification "used" ;;
      if py_is_True used
      then raise (HTTPException HTTP_400_BAD_REQUEST "Token has already been used")
      else
        now <- utcnow ;;
        expires_at <- verification_getattr verification "expires_at" ;;
        expired <- datetime_gt now expires_at ;;
        if (expired : bool)
        then raise (HTTPException HTTP_400_BAD_REQUEST "Token has expired")
        else
          let verification := verification_setattr verification "used" (PyBool true) in
          used_at <- utcnow ;;
          let verification :=
            verification_setattr verification "used_at" (PyDateTime used_at) in
          found_authority <-
            query_authority_first (AuthorityVerification.authority_id (vrow verification)) ;;
          match found_authority with
          | None => raise (HTTPException HTTP_404_NOT_FOUND "Authority not found")
          | Some authority =>
              ret (mkTokenAck "verified" "Token verified successfully" hazard_id
                     (Authority.id authority) (Authority.email authority)
                     (Authority.jurisdiction authority))
          end
  end.

Record Stats := mkStats {
  pending_authority : nat;
  verified : nat;
  resolved : nat;
  total : nat
}.

(** [.filter(Hazard.status == value).count()] *)
Definition count_status (d : Db) (s : HazardStatus) : nat :=
  List.length (filter (fun h => String.eqb (HazardStatus_value (Hazard.status h))
                                      (HazardStatus_value s))
                 (hazards d)).

(** [GET /authority/stats] *)
Definition get_authority_stats (authority : Authority.t) : M Stats :=
  d <- get_db ;;
  let pending := count_status d PENDING_AUTHORITY in
  let verified := count_status d VERIFIED in
  let resolved := count_status d RESOLVED in
  ret (mkStats pending verified resolved (pending + verified + resolved)%nat).

(** The three transition routes as the framework serves them: the
    dependency [get_current_authority] runs first, then the handler. *)
Inductive AuthorityAction :=
| VERIFY
| REJECT
| RESOLVE.

Definition perform (action : AuthorityAction) (hazard_id : string)
    (request : Schemas.AuthorityVerificationRequest) (authority : Authority.t)
  : M HazardObj :=
  match action with
  | VERIFY => verify_hazard hazard_id request authority
  | REJECT => reject_hazard hazard_id request authority
  | RESOLVE => resolve_hazard hazard_id request authority
  end.

Definition transition_endpoint (jwt_decode : string -> JwtOutcome)
    (action : AuthorityAction) (credentials hazard_id : string)
    (request : Schemas.AuthorityVerificationRequest) : M HazardObj :=
  authority <- get_current_authority jwt_decode credentials ;;
  perform action hazard_id request authority.

(** A history of transition requests served one after the other. *)
Record Call := mkCall {
  call_action : AuthorityAction;
  call_hazard_id : string;
  call_request : Schemas.AuthorityVerificationRequest;
  call_authority : Authority.t
}.

Definition serve (c : Call) (w : World) : World :=
  snd (perform (call_action c) (call_hazard_id c) (call_request c)
               (call_authority c) w).

Definition serve_all (calls : list Call) (w : World) : World :=
  fold_left (fun w c => serve c w) calls w.

(* ------------------------------------------------------------------ *)
(** ** Observations on the persisted state *)

Definition hazard_row (d : Db) (hazard_id : string) : option Hazard.t :=
  find (fun h => String.eqb (Hazard.id h) hazard_id) (hazards d).

Definition status_of (d : Db) (hazard_id : string) : option HazardStatus :=
  option_map Hazard.status (hazard_row d hazard_id).


(** The lifecycle diagram of the specification, edge by edge. *)
Definition spec_transition (s : HazardStatus) (action : AuthorityAction)
  : option HazardStatus :=
  match s, action with
  | PENDING_AUTHORITY, VERIFY => Some VERIFIED
  | PENDING_AUTHORITY, REJECT => Some RESOLVED
  | VERIFIED, RESOLVE => Some RESOLVED
  | _, _ => None
  end.

(* ------------------------------------------------------------------ *)
(** ** db.py: query helpers *)

(** [ORDER BY created_at ASC] *)
Fixpoint insert_oldest_first (h : Hazard.t) (l : list Hazard.t) : list Hazard.t :=
  match l with
  | [] => [h]
  | x :: rest =>
      if Hazard.created_at h <=? Hazard.created_at x then h :: l
      else x :: insert_oldest_first h rest
  end.

Definition order_by_created_at_asc (l : list Hazard.t) : list Hazard.t :=
  fold_right insert_oldest_first [] l.

Definition get_verified_hazards (limit : Z) : M (list Hazard.t) :=
  d <- get_db ;;
  selected <- sql_limit limit
                (order_by_created_at_desc
                   (filter (fun h => HazardStatus_eqb (Hazard.status h) VERIFIED)
                           (hazards d))) ;;
  hazards <- mapM load_hazard selected ;;
  ret (map row hazards).

Definition get_hazard_by_id (hazard_id : string) : M (option Hazard.t) :=
  found <- query_hazard_first hazard_id ;;
  ret (option_map row found).

Definition get_pending_hazards : M (list Hazard.t) :=
  d <- get_db ;;
  hazards <- mapM load_hazard
               (order_by_created_at_asc
                  (filter (fun h => HazardStatus_eqb (Hazard.status h) PENDING_AUTHORITY)
                          (hazards d))) ;;
  ret (map row hazards).

Definition get_authority_by_id (authority_id : string) : M (option Authority.t) :=
  d <- get_db ;;
  ret (find (fun a => String.eqb (Authority.id a) authority_id) (authorities d)).

Definition get_authority_by_email (email : string) : M (option Authority.t) :=
  d <- get_db ;;
  ret (find (fun a => String.eqb (Authority.email a) email) (authorities d)).

Definition get_verification_by_token (token : string)
  : M (option AuthorityVerification.t) :=
  d <- get_db ;;
  ret (find (fun v => String.eqb (AuthorityVerification.token v) token)
            (authority_verifications d)).

Definition get_verification_by_hazard_id (hazard_id : string)
  : M (option AuthorityVerification.t) :=
  d <- get_db ;;
  ret (find (fun v => String.eqb (AuthorityVerification.hazard_id v) hazard_id)
            (authority_verifications d)).

(* ------------------------------------------------------------------ *)
(** ** auth.py and auth_routes.py: login *)

(** The mapped columns of table [authorities], read by name; [None] when
    the class maps no such column. *)
Definition Authority_column (a : Authority.t) (name : string) : option PyVal :=
  if String.eqb name "id" then Some (PyStr (Authority.id a))
  else if String.eqb name "name" then Some (PyStr (Authority.name a))
  else if String.eqb name "email" then Some (PyStr (Authority.email a))
  else if String.eqb name "phone" then Some (py_opt PyStr (Authority.phone a))
  else if String.eqb name "level"
       then Some (PyStr (AuthorityLevel_value (Authority.level a)))
  else if String.eqb name "jurisdiction" then Some (PyStr (Authority.jurisdiction a))
  else if String.eqb name "is_active" then Some (PyBool (Authority.is_active a))
  else if String.eqb name "jwt_secret" then Some (PyStr (Authority.jwt_secret a))
  else if String.eqb name "created_at" then Some (PyDateTime (Authority.created_at a))
  else if String.eqb name "updated_at" then Some (PyDateTime (Authority.updated_at a))
  else None.

(** Truth value of a Python value. *)
Definition py_truthy (v : PyVal) : bool :=
  match v with
  | PyNone => false
  | PyStr s => negb (String.eqb s EmptyString)
  | PyBool b => b
  | PyFloat (Finite q) => negb (Qeq_bool q (Qmake 0 1))
  | PyFloat _ => true
  | PyDateTime _ => true
  end.

Definition ACCESS_TOKEN_EXPIRE_MINUTES : Z := 480.

Definition MICROSECONDS_PER_MINUTE : Z := 60000000.

(** [create_access_token]: [jwt_encode data exp] stands for the signed
    encoding of [data] extended with the claim [exp]. A [timedelta] is its
    length in microseconds; the zero timedelta is falsy. *)
Definition create_access_token (jwt_encode : payload -> datetime -> string)
    (data : payload) (expires_delta : option Z) : M string :=
  now <- utcnow ;;
  let expire :=
    match expires_delta with
    | Some delta =>
        if delta =? 0
        then now + ACCESS_TOKEN_EXPIRE_MINUTES * MICROSECONDS_PER_MINUTE
        else now + delta
    | None => now + ACCESS_TOKEN_EXPIRE_MINUTES * MICROSECONDS_PER_MINUTE
    end in
  ret (jwt_encode data expire).

Definition create_authority_token (jwt_encode : payload -> datetime -> string)
    (authority : Authority.t) : M string :=
  let token_data :=
    [("authority_id", Authority.id authority);
     ("email", Authority.email authority);
     ("jurisdiction", Authority.jurisdiction authority);
     ("role", "VERIFIER")] in
  create_access_token jwt_encode token_data None.

(** [authenticate_authority]; [checkpw] stands for [bcrypt.checkpw]. *)
Definition authenticate_authority (checkpw : string -> string -> bool)
    (email password : string) : M (option Authority.t) :=
  d <- get_db ;;
  match find (fun a => String.eqb (Authority.email a) email) (authorities d) with
  | None => ret None
  | Some authority =>
      match Authority_column authority "password_hash" with
      | None => ret None
      | Some password_hash =>
          if negb (py_truthy password_hash) then ret None
          else
            match password_hash with
            | PyStr hashed =>
                if negb (checkpw password hashed) then ret None
                else ret (Some authority)
            | _ => raise (AttributeError "object" "encode")
            end
      end
  end.

Record AuthorityLoginRequest := mkAuthorityLoginRequest {
  login_email : string;
  login_password : string
}.

Module AuthorityResponse.
Record t := mk {
  id : string;
  email : string;
  jurisdiction : string;
  name : option string;
  created_at : datetime
}.
End AuthorityResponse.

Module AuthorityLoginResponse.
Record t := mk {
  access_token : string;
  token_type : string;
  authority : AuthorityResponse.t
}.
End AuthorityLoginResponse.

(** [POST /auth/login]. The default of [getattr(authority, 'created_at',
    datetime.utcnow())] is evaluated whether it is used or not. *)
Definition login_authority (jwt_encode : payload -> datetime -> string)
    (checkpw : string -> string -> bool) (request : AuthorityLoginRequest)
  : M AuthorityLoginResponse.t :=
  found <- authenticate_authority checkpw (login_email request)
                                  (login_password request) ;;
  match found with
  | None =>
      raise (HTTPException HTTP_401_UNAUTHORIZED "Incorrect email or password")
  | Some authority =>
      access_token <- create_authority_token jwt_encode authority ;;
      let authority_name := Some (Authority.name authority) in
      fallback <- utcnow ;;
      let authority_created_at := Authority.created_at authority in
      ret (AuthorityLoginResponse.mk access_token "bearer"
             (AuthorityResponse.mk (Authority.id authority) (Authority.email authority)
                (Authority.jurisdiction authority) authority_name
                authority_created_at))
  end.

(* ------------------------------------------------------------------ *)
(** ** Requests served one after the other *)

(** The requests that can write, or are meant to. *)
Inductive Request :=
| ReportRequest (body : Schemas.ReportBody)
| TransitionRequest (call : Call)
| RedeemRequest (hazard_id token : string).

Definition handle (r : Request) (w : World) : World :=
  match r with
  | ReportRequest body => snd (report_endpoint body w)
  | TransitionRequest call => serve call w
  | RedeemRequest hazard_id token => snd (verify_authority_token hazard_id token w)
  end.

Definition handle_all (requests : list Request) (w : World) : World :=
  fold_left (fun w r => handle r w) requests w.

(* ------------------------------------------------------------------ *)
(** ** Sample data *)

(** The readings of the first calls to the clock, one microsecond apart
    (the last one is repeated afterwards). *)
Definition sample_clock (k : nat) : datetime :=
  nth k [1700000000000000; 1700000000000001; 1700000000000002;
         1700000000000003; 1700000000000004; 1700000000000005;
         1700000000000006; 1700000000000007]
      1700000000000008.

Definition sample_uuid (k : nat) : string :=
  "uuid-" ++ NilEmpty.string_of_uint (Nat.to_uint k).

Definition sample_hazard (id : string) (status : HazardStatus) (created : datetime)
  : Hazard.t :=
  Hazard.mk id "POTHOLE" (Finite (Qmake 40 1)) (Finite (Qmake (-74) 1))
            (Some created) status created created None.

Definition sample_authority (id : string) (level : AuthorityLevel) (active : bool)
  : Authority.t :=
  Authority.mk id ("Department " ++ id) (id ++ "@example.org") None level
               "New Hampshire" active "secret" 0 0.

Definition sample_world (d : Db) : World := mkWorld d sample_clock 0 sample_uuid 0.

Definition sample_db : Db :=
  mkDb [sample_hazard "h1" PENDING_AUTHORITY 100;
        sample_hazard "h2" VERIFIED 200;
        sample_hazard "h3" RESOLVED 300;
        sample_hazard "h4" VERIFIED 400;
        sample_hazard "h5" REPORTED 500]
       [sample_authority "a1" STATE true;
        sample_authority "a2" NATIONAL false]
       [AuthorityVerification.mk "v1" "h1" "a1" "tok-1" 1600000000000000 false
                                 None None 0 0;
        AuthorityVerification.mk "v4" "h4" "a1" "tok-4" 1800000000000000 false
                                 None None 0 0]
       [].

Definition sample_jwt (token : string) : JwtOutcome :=
  if String.eqb token "bearer-a1" then JwtPayload [("authority_id", "a1")]
  else if String.eqb token "bearer-a2" then JwtPayload [("authority_id", "a2")]
  else JwtInvalidToken.

Definition no_notes : Schemas.AuthorityVerificationRequest :=
  Schemas.mkAuthorityVerificationRequest None.

(** The path of the lifecycle diagram, asked for hazard h1: Verify, then
    Resolve. *)
Definition sample_history : list Call :=
  [mkCall VERIFY "h1" no_notes (sample_authority "a1" STATE true);
   mkCall RESOLVE "h1" no_notes (sample_authority "a1" STATE true)].

Definition sample_report (observed_at : option datetime) : Schemas.ReportBody :=
  Schemas.mkReportBody Schemas.POTHOLE (Finite (Qmake 40 1)) (Finite (Qmake (-74) 1))
                       observed_at.

(* ------------------------------------------------------------------ *)
(** ** Vocabulary of the statements *)


(** The word each handler puts at the end of its refusal. *)
Definition refusal_suffix (action : AuthorityAction) : string :=
  match action with
  | VERIFY => " status, cannot verify"
  | REJECT => " status, cannot reject"
  | RESOLVE => " status, cannot resolve (must be VERIFIED)"
  end.

Definition newer_or_same (a b : Hazard.t) : Prop :=
  Hazard.created_at b <= Hazard.created_at a.

Definition older_or_same (a b : Hazard.t) : Prop :=
  Hazard.created_at a <= Hazard.created_at b.

(** The stored hazard type names a member of [models.HazardType]. *)
Definition loadable (h : Hazard.t) : Prop :=
  exists t, HazardType_lookup (Hazard.hazard_type h) = Some t.

(** The limit fits a signed 64-bit integer. *)
Definition in_int64 (limit : Z) : Prop :=
  INT64_MIN <= limit <= INT64_MAX.

Definition in_closed_range (x : pyfloat) (lo hi : Q) : Prop :=
  exists q, x = Finite q /\ (lo <= q)%Q /\ (q <= hi)%Q.

(** The window check of [validate_observed_at] on the two clock readings
    it takes: not after the first, and fewer than two whole days before the
    second. *)
Definition observed_at_accepted (w : World) (v : datetime) : Prop :=
  v <= clock w (ticks w) /\ timedelta_days (clock w (S (ticks w))) v <= 1.

Definition advance (w : World) (n : nat) : World :=
  mkWorld (db w) (clock w) (ticks w + n) (uuid_source w) (uuid_drawn w).

(** Clock readings the validation of a report body takes when it passes. *)
Definition validation_readings (body : Schemas.ReportBody) : nat :=
  match Schemas.body_observed_at body with
  | Some _ => 2
  | None => 1
  end.

(** The rows the driver read path selects from, and the triage queue. *)
Definition verified_rows (d : Db) : list Hazard.t :=
  filter (fun h => HazardStatus_eqb (Hazard.status h) VERIFIED) (hazards d).

Definition pending_rows (d : Db) : list Hazard.t :=
  filter (fun h => HazardStatus_eqb (Hazard.status h) PENDING_AUTHORITY) (hazards d).

(** The clock never runs backwards. *)
Definition clock_monotone (w : World) : Prop :=
  forall i j : nat, (i <= j)%nat -> clock w i <= clock w j.

(** No hazard was updated before it was created, nor after the next
    reading of the clock. *)
Definition timestamps_ordered (w : World) : Prop :=
  forall h, In h (hazards (db w)) ->
            Hazard.created_at h <= Hazard.updated_at h
            /\ Hazard.updated_at h <= clock w (ticks w).


Definition report_requests (requests : list Request) : nat :=
  List.length (filter (fun r => match r with ReportRequest _ => true | _ => false end)
                      requests).

(** A report of a type that [schemas.HazardType] has and
    [models.HazardType] has not. *)
Definition sample_debris_report : Schemas.ReportBody :=
  Schemas.mkReportBody Schemas.DEBRIS (Finite (Qmake 40 1)) (Finite (Qmake (-74) 1))
                       None.

Definition sample_requests : list Request :=
  [ReportRequest (sample_report None);
   TransitionRequest (mkCall VERIFY "h1" no_notes (sample_authority "a1" STATE true));
   RedeemRequest "h4" "tok-4";
   TransitionRequest (mkCall RESOLVE "h1" no_notes (sample_authority "a2" NATIONAL false));
   TransitionRequest (mkCall REJECT "h1" no_notes (sample_authority "a1" STATE true))].

(** The row a valid report inserts. *)
Definition reported_hazard (w : World) (body : Schemas.ReportBody) (observed : datetime)
  : Hazard.t :=
  Hazard.mk (uuid_source w (uuid_drawn w))
            (Schemas.HazardType_value (Schemas.body_hazard_type body))
            (Schemas.body_latitude body) (Schemas.body_longitude body)
            (Some observed) PENDING_AUTHORITY
            (clock w (ticks w + validation_readings body)%nat)
            (clock w (ticks w + validation_readings body + 1)%nat)
            None.

(** The world after the commit of a valid report, [extra] clock readings
    later. *)
Definition reported_world (w : World) (body : Schemas.ReportBody) (h : Hazard.t)
    (extra : nat) : World :=
  mkWorld (mkDb (hazards (db w) ++ [h]) (authorities (db w))
                (authority_verifications (db w)) (audit_logs (db w)))
          (clock w) (ticks w + validation_readings body + 2 + extra)%nat
          (uuid_source w) (S (uuid_drawn w)).

(** A bearer token that does not lead to a stored authority: it does not
    decode, or carries no authority_id, or names no row of the table. *)
Definition credentials_rejected (jwt_decode : string -> JwtOutcome)
    (credentials : string) (d : Db) : Prop :=
  match jwt_decode credentials with
  | JwtPayload p =>
      match payload_get "authority_id" p with
      | Some authority_id =>
          find (fun a => String.eqb (Authority.id a) authority_id) (authorities d) = None
      | None => True
      end
  | JwtExpiredSignature | JwtInvalidToken => True
  end.

(** A listed detail record shows the columns of a row, and no
    verification time. *)
Definition detail_matches (h : Hazard.t) (d : Schemas.HazardDetailResponse) : Prop :=
  Schemas.detail_id d = Hazard.id h
  /\ Schemas.detail_hazard_type d = Hazard.hazard_type h
  /\ Schemas.detail_latitude d = Hazard.latitude h
  /\ Schemas.detail_longitude d = Hazard.longitude h
  /\ Some (Schemas.detail_observed_at d) = Hazard.observed_at h
  /\ Schemas.detail_status d = Hazard.status h
  /\ Schemas.detail_verified_at d = None
  /\ Schemas.detail_created_at d = Hazard.created_at h
  /\ Schemas.detail_updated_at d = Hazard.updated_at h.

(** Unfolding a transition handler down to the reads it makes. *)
Ltac run_handler :=
  unfold perform, verify_hazard, reject_hazard, resolve_hazard,
    query_hazard_first, load_hazard, str_status, bind, ret, raise, get_db;
  cbn [db clock ticks uuid_source uuid_drawn row unmapped fst snd
       hazards authorities authority_verifications audit_logs].

(* ------------------------------------------------------------------ *)
(** * Properties *)

(** ** Status strings *)

Lemma HazardStatus_value_eqb (a b : HazardStatus) :
  String.eqb (HazardStatus_value a) (HazardStatus_value b) = HazardStatus_eqb a b.
Proof. destruct a, b; reflexivity. Qed.

Lemma HazardStatus_eqb_eq (a b : HazardStatus) :
  HazardStatus_eqb a b = true <-> a = b.
Proof. destruct a, b; simpl; split; congruence. Qed.

(** [str] of a status member is the value of no status member: it carries
    the class name in front. *)
Lemma HazardStatus_str_is_no_value (s s' : HazardStatus) :
  String.eqb (HazardStatus_str s) (HazardStatus_value s') = false.
Proof. destruct s, s'; reflexivity. Qed.

(** ** Loading rows *)

Lemma load_hazard_cases (h : Hazard.t) (w : World) :
  (loadable h /\ load_hazard h w = (Ok (mkHazardObj h []), w))
  \/ (~ loadable h /\ load_hazard h w = (Raise (LookupError (Hazard.hazard_type h)), w)).
Proof.
  unfold loadable, load_hazard.
  destruct (HazardType_lookup (Hazard.hazard_type h)) as [t|].
  - left. split; [exists t; reflexivity | reflexivity].
  - right. split; [intros [t Ht]; discriminate Ht | reflexivity].
Qed.

Lemma load_hazard_loadable (h : Hazard.t) (w : World) :
  loadable h -> load_hazard h w = (Ok (mkHazardObj h []), w).
Proof.
  intros Hl. destruct (load_hazard_cases h w) as [[_ H]|[Hno _]]; [exact H | contradiction].
Qed.

Lemma map_row_fresh (rows : list Hazard.t) :
  map row (map (fun h => mkHazardObj h []) rows) = rows.
Proof. induction rows as [|h rows IH]; cbn [map row]; congruence. Qed.

(** Loading the rows of a result: all of them load, or the first one whose
    type names no member stops the query. *)
Lemma mapM_load_hazard_cases (rows : list Hazard.t) (w : World) :
  (Forall loadable rows
   /\ mapM load_hazard rows w = (Ok (map (fun h => mkHazardObj h []) rows), w))
  \/ (exists h,
        In h rows /\ ~ loadable h
        /\ mapM load_hazard rows w = (Raise (LookupError (Hazard.hazard_type h)), w)).
Proof.
  induction rows as [|h rows IH]; cbn [mapM map].
  - left. split; [constructor | reflexivity].
  - unfold bind. destruct (load_hazard_cases h w) as [[Hl Hrun]|[Hno Hrun]]; rewrite Hrun.
    + destruct IH as [[Hall Hrest]|[h' [Hin [Hno Hrest]]]]; rewrite Hrest.
      * left. split; [constructor; assumption | reflexivity].
      * right. exists h'. split; [right; exact Hin|]. split; [exact Hno | reflexivity].
    + right. exists h. split; [left; reflexivity|]. split; [exact Hno | reflexivity].
Qed.

Lemma in_int64_dec (limit : Z) :
  (in_int64 limit /\ (limit <? INT64_MIN) || (INT64_MAX <? limit) = false)
  \/ (~ in_int64 limit /\ (limit <? INT64_MIN) || (INT64_MAX <? limit) = true).
Proof.
  unfold in_int64.
  destruct (Z.ltb_spec limit INT64_MIN), (Z.ltb_spec INT64_MAX limit); cbn [orb];
    [right | right | right | left]; split; try reflexivity; lia.
Qed.

Lemma sql_limit_cases {A} (limit : Z) (rows : list A) (w : World) :
  (in_int64 limit /\ sql_limit limit rows w = (Ok (limit_rows limit rows), w))
  \/ (~ in_int64 limit
      /\ sql_limit limit rows w
         = (Raise (OverflowError "Python int too large to convert to SQLite INTEGER"), w)).
Proof.
  unfold sql_limit.
  destruct (in_int64_dec limit) as [[Hin Hb]|[Hout Hb]]; rewrite Hb.
  - left. split; [exact Hin | reflexivity].
  - right. split; [exact Hout | reflexivity].
Qed.

(** ** The driver read path *)

Lemma insert_newest_first_In (h x : Hazard.t) (l : list Hazard.t) :
  In x (insert_newest_first h l) <-> x = h \/ In x l.
Proof.
  induction l as [|y l IH]; simpl.
  - intuition congruence.
  - destruct (Hazard.created_at y <=? Hazard.created_at h); simpl.
    + intuition congruence.
    + rewrite IH. intuition congruence.
Qed.

Lemma order_by_created_at_desc_In (x : Hazard.t) (l : list Hazard.t) :
  In x (order_by_created_at_desc l) <-> In x l.
Proof.
  induction l as [|y l IH]; simpl.
  - tauto.
  - rewrite insert_newest_first_In, IH. intuition congruence.
Qed.

Lemma insert_newest_first_length (h : Hazard.t) (l : list Hazard.t) :
  List.length (insert_newest_first h l) = S (List.length l).
Proof.
  induction l as [|y l IH]; simpl; auto.
  destruct (Hazard.created_at y <=? Hazard.created_at h); simpl; auto.
Qed.

Lemma order_by_created_at_desc_length (l : list Hazard.t) :
  List.length (order_by_created_at_desc l) = List.length l.
Proof.
  induction l as [|y l IH]; simpl; auto.
  rewrite insert_newest_first_length. congruence.
Qed.

Lemma insert_newest_first_sorted (h : Hazard.t) (l : list Hazard.t) :
  StronglySorted newer_or_same l ->
  StronglySorted newer_or_same (insert_newest_first h l).
Proof.
  induction 1 as [|y l Hs IH Hy]; simpl.
  - constructor; [constructor | constructor].
  - destruct (Z.leb_spec (Hazard.created_at y) (Hazard.created_at h)) as [Hle|Hgt].
    + constructor.
      * constructor; assumption.
      * constructor.
        -- exact Hle.
        -- rewrite Forall_forall in Hy |- *. intros z Hz.
           specialize (Hy z Hz). unfold newer_or_same in *. lia.
    + constructor.
      * exact IH.
      * rewrite Forall_forall in Hy |- *. intros z Hz.
        apply (proj1 (insert_newest_first_In _ _ _)) in Hz. destruct Hz as [->|Hz].
        -- unfold newer_or_same. lia.
        -- apply Hy, Hz.
Qed.

Lemma order_by_created_at_desc_sorted (l : list Hazard.t) :
  StronglySorted newer_or_same (order_by_created_at_desc l).
Proof.
  induction l as [|y l IH]; simpl.
  - constructor.
  - apply insert_newest_first_sorted, IH.
Qed.

Lemma firstn_In {A} (n : nat) (l : list A) (x : A) :
  In x (firstn n l) -> In x l.
Proof.
  revert l. induction n as [|n IH]; intros [|y l]; simpl; try tauto.
  intros [->|H]; [left; reflexivity | right; apply IH, H].
Qed.

Lemma firstn_sorted {A} (R : A -> A -> Prop) (n : nat) (l : list A) :
  StronglySorted R l -> StronglySorted R (firstn n l).
Proof.
  intros Hs. revert n. induction Hs as [|y l Hs IH Hy]; intros [|n]; simpl;
    try constructor.
  - apply IH.
  - rewrite Forall_forall in Hy |- *. intros z Hz. apply Hy.
    eapply firstn_In, Hz.
Qed.

Lemma limit_rows_In {A} (limit : Z) (l : list A) (x : A) :
  In x (limit_rows limit l) -> In x l.
Proof.
  unfold limit_rows. destruct (limit <? 0); [tauto | apply firstn_In].
Qed.

Lemma limit_rows_sorted {A} (R : A -> A -> Prop) (limit : Z) (l : list A) :
  StronglySorted R l -> StronglySorted R (limit_rows limit l).
Proof.
  unfold limit_rows. destruct (limit <? 0); [tauto | apply firstn_sorted].
Qed.

Lemma limit_rows_bound {A} (limit : Z) (l : list A) :
  0 <= limit -> Z.of_nat (List.length (limit_rows limit l)) <= limit.
Proof.
  intros H. unfold limit_rows.
  destruct (Z.ltb_spec limit 0); [lia|].
  rewrite length_firstn. lia.
Qed.

Lemma selected_verified_In (d : Db) (limit : Z) (h : Hazard.t) :
  In h (limit_rows limit (order_by_created_at_desc (verified_rows d))) ->
  In h (hazards d) /\ Hazard.status h = VERIFIED.
Proof.
  intros Hin. apply limit_rows_In in Hin.
  apply (proj1 (order_by_created_at_desc_In _ _)) in Hin.
  apply (proj1 (filter_In _ _ _)) in Hin. destruct Hin as [Hin Hst].
  apply HazardStatus_eqb_eq in Hst. split; assumption.
Qed.

(** The three ways GET /hazards/verified can end. None writes. *)
Lemma driver_listing_cases (w : World) (limit : Z) :
  (~ in_int64 limit
   /\ get_verified_hazards_for_driver limit w
      = (Raise (OverflowError "Python int too large to convert to SQLite INTEGER"), w))
  \/ (in_int64 limit
      /\ Forall loadable (limit_rows limit (order_by_created_at_desc (verified_rows (db w))))
      /\ get_verified_hazards_for_driver limit w
         = (Ok (limit_rows limit (order_by_created_at_desc (verified_rows (db w)))), w))
  \/ (in_int64 limit
      /\ exists h,
           In h (limit_rows limit (order_by_created_at_desc (verified_rows (db w))))
           /\ ~ loadable h
           /\ get_verified_hazards_for_driver limit w
              = (Raise (LookupError (Hazard.hazard_type h)), w)).
Proof.
  unfold get_verified_hazards_for_driver, bind, get_db, ret.
  fold (verified_rows (db w)).
  destruct (sql_limit_cases limit (order_by_created_at_desc (verified_rows (db w))) w)
    as [[Hin Hrun]|[Hout Hrun]]; rewrite Hrun; cbv beta iota.
  - right.
    destruct (mapM_load_hazard_cases
                (limit_rows limit (order_by_created_at_desc (verified_rows (db w)))) w)
      as [[Hall Hload]|[h [Hh [Hno Hload]]]]; rewrite Hload; cbv beta iota.
    + left. split; [exact Hin|]. split; [exact Hall|].
      rewrite map_row_fresh. reflexivity.
    + right. split; [exact Hin|]. exists h. split; [exact Hh|]. split; [exact Hno|].
      reflexivity.
  - left. split; [exact Hout | reflexivity].
Qed.

(** C1, as the code has it. For every database state and every limit: when
    the limit fits a signed 64-bit integer and every VERIFIED hazard has a
    stored type that [models.HazardType] knows, GET /hazards/verified
    returns, without changing anything, a list that holds only rows of the
    hazards table whose status is VERIFIED (so none that is
    PENDING_AUTHORITY, RESOLVED or REPORTED), ordered newest first by
    creation timestamp, with at most [limit] entries when the limit is not
    negative. Whatever the state and the limit, a list that is returned has
    these properties. A limit outside the 64-bit range raises
    OverflowError, and the only other failure is a LookupError on a
    VERIFIED row whose type cannot be read; neither writes. *)
Theorem get_verified_hazards_only_verified_newest_first :
  forall (w : World) (limit : Z),
    (in_int64 limit ->
     Forall loadable (verified_rows (db w)) ->
     exists hs, get_verified_hazards_for_driver limit w = (Ok hs, w))
    /\ match get_verified_hazards_for_driver limit w with
       | (Ok hs, w') =>
           w' = w
           /\ in_int64 limit
           /\ (forall h, In h hs ->
                 In h (hazards (db w))
                 /\ Hazard.status h = VERIFIED
                 /\ Hazard.status h <> PENDING_AUTHORITY
                 /\ Hazard.status h <> RESOLVED
                 /\ Hazard.status h <> REPORTED)
           /\ StronglySorted newer_or_same hs
           /\ (0 <= limit -> Z.of_nat (List.length hs) <= limit)
       | (Raise e, w') =>
           w' = w
           /\ ((~ in_int64 limit
                /\ e = OverflowError "Python int too large to convert to SQLite INTEGER")
               \/ (exists h,
                     In h (hazards (db w))
                     /\ Hazard.status h = VERIFIED
                     /\ ~ loadable h
                     /\ e = LookupError (Hazard.hazard_type h)))
       end.
Proof.
  intros w limit. split.
  - intros Hin Hall.
    destruct (driver_listing_cases w limit)
      as [[Hout _]|[[_ [_ Hrun]]|[_ [h [Hh [Hno _]]]]]].
    + contradiction.
    + eexists. exact Hrun.
    + exfalso. apply Hno. rewrite Forall_forall in Hall. apply Hall.
      apply limit_rows_In in Hh.
      apply (proj1 (order_by_created_at_desc_In _ _)) in Hh. exact Hh.
  - destruct (driver_listing_cases w limit)
      as [[Hout Hrun]|[[Hin [_ Hrun]]|[_ [h [Hh [Hno Hrun]]]]]]; rewrite Hrun.
    + split; [reflexivity|]. left. split; [exact Hout | reflexivity].
    + split; [reflexivity|]. split; [exact Hin|]. split; [|split].
      * intros h Hh. destruct (selected_verified_In _ _ _ Hh) as [H1 H2].
        rewrite H2. repeat split; try assumption; discriminate.
      * apply limit_rows_sorted, order_by_created_at_desc_sorted.
      * apply limit_rows_bound.
    + split; [reflexivity|]. right. exists h.
      destruct (selected_verified_In _ _ _ Hh) as [H1 H2].
      repeat split; assumption.
Qed.

Lemma sample_db_loadable : Forall loadable (hazards sample_db).
Proof. repeat constructor; exists POTHOLE; reflexivity. Qed.

Lemma sample_verified_loadable : Forall loadable (verified_rows sample_db).
Proof. repeat constructor; exists POTHOLE; reflexivity. Qed.

(** The theorem on the sample database with limit 1: the newest VERIFIED
    hazard, h4, is returned alone. *)
Lemma get_verified_hazards_sample :
  in_int64 1
  /\ Forall loadable (verified_rows (db (sample_world sample_db)))
  /\ exists hs,
       get_verified_hazards_for_driver 1 (sample_world sample_db)
       = (Ok hs, sample_world sample_db).
Proof.
  assert (Hin : in_int64 1) by (unfold in_int64, INT64_MIN, INT64_MAX; lia).
  split; [exact Hin|]. split; [exact sample_verified_loadable|].
  exact (proj1 (get_verified_hazards_only_verified_newest_first (sample_world sample_db) 1)
               Hin sample_verified_loadable).
Defined.

(** C1 as stated fails for a negative limit: with limit -1 the two VERIFIED
    hazards of the sample database are both returned, which is more than
    [limit]. *)
Lemma get_verified_hazards_negative_limit_unbounded :
  exists hs,
    get_verified_hazards_for_driver (-1) (sample_world sample_db)
    = (Ok hs, sample_world sample_db)
    /\ List.length hs = 2%nat
    /\ ~ (Z.of_nat (List.length hs) <= -1).
Proof.
  eexists. split; [reflexivity|]. split; [reflexivity|]. simpl. lia.
Qed.

(** ** The transition handlers *)

(** How every call of a transition handler ends: HTTP 404 when no hazard
    has the id, LookupError when the row cannot be loaded, and otherwise
    HTTP 400 from the status guard, which compares [str(hazard.status)]
    with a bare status value and so never lets a hazard through. The state
    is left as it was, clock included. *)
Lemma perform_outcome (w : World) (action : AuthorityAction) (hazard_id : string)
    (request : Schemas.AuthorityVerificationRequest) (authority : Authority.t) :
  exists e,
    perform action hazard_id request authority w = (Raise e, w)
    /\ match hazard_row (db w) hazard_id with
       | None =>
           e = HTTPException HTTP_404_NOT_FOUND ("Hazard " ++ hazard_id ++ " not found")
       | Some h =>
           match HazardType_lookup (Hazard.hazard_type h) with
           | None => e = LookupError (Hazard.hazard_type h)
           | Some _ =>
               e = HTTPException HTTP_400_BAD_REQUEST
                     ("Hazard is in " ++ HazardStatus_str (Hazard.status h)
                      ++ refusal_suffix action)
           end
       end.
Proof.
  unfold hazard_row.
  destruct action; run_handler;
    (destruct (find _ (hazards (db w))) as [h|];
     [destruct (HazardType_lookup (Hazard.hazard_type h)); cbn [row negb];
      [rewrite HazardStatus_str_is_no_value; cbn [negb]|]|]);
    eexists; split; reflexivity.
Qed.

Lemma perform_raises (w : World) (action : AuthorityAction) (hazard_id : string)
    (request : Schemas.AuthorityVerificationRequest) (authority : Authority.t) :
  exists e, perform action hazard_id request authority w = (Raise e, w).
Proof.
  destruct (perform_outcome w action hazard_id request authority) as [e [H _]].
  exists e. exact H.
Qed.

Lemma serve_id (c : Call) (w : World) : serve c w = w.
Proof.
  unfold serve.
  destruct (perform_raises w (call_action c) (call_hazard_id c) (call_request c)
              (call_authority c)) as [e H].
  rewrite H. reflexivity.
Qed.

Lemma serve_all_id (history : list Call) (w : World) : serve_all history w = w.
Proof.
  unfold serve_all. induction history as [|c history IH]; cbn [fold_left].
  - reflexivity.
  - rewrite serve_id. exact IH.
Qed.

(** ** The lifecycle state machine *)

(** C2 at concrete inputs. In the sample database hazard h1 is
    PENDING_AUTHORITY and h2 is VERIFIED, so the lifecycle diagram allows
    Verify and Reject on h1 and Resolve on h2. The code refuses all three
    with HTTP 400, naming the status by its qualified name, and leaves the
    state as it was; after Verify and then Resolve have been asked for h1
    its status is still PENDING_AUTHORITY. This is so for every history and
    every state: serving transition requests never changes anything, so no
    edge of the diagram is ever taken. *)
Theorem legal_transitions_are_refused :
  let w := sample_world sample_db in
  let a1 := sample_authority "a1" STATE true in
  status_of sample_db "h1" = Some PENDING_AUTHORITY
  /\ status_of sample_db "h2" = Some VERIFIED
  /\ spec_transition PENDING_AUTHORITY VERIFY = Some VERIFIED
  /\ spec_transition PENDING_AUTHORITY REJECT = Some RESOLVED
  /\ spec_transition VERIFIED RESOLVE = Some RESOLVED
  /\ verify_hazard "h1" no_notes a1 w
     = (Raise (HTTPException HTTP_400_BAD_REQUEST
                 "Hazard is in HazardStatus.PENDING_AUTHORITY status, cannot verify"), w)
  /\ reject_hazard "h1" no_notes a1 w
     = (Raise (HTTPException HTTP_400_BAD_REQUEST
                 "Hazard is in HazardStatus.PENDING_AUTHORITY status, cannot reject"), w)
  /\ resolve_hazard "h2" no_notes a1 w
     = (Raise (HTTPException HTTP_400_BAD_REQUEST
                 "Hazard is in HazardStatus.VERIFIED status, cannot resolve (must be VERIFIED)"),
        w)
  /\ status_of (db (serve_all sample_history w)) "h1" = Some PENDING_AUTHORITY
  /\ (forall (history : list Call) (w0 : World), serve_all history w0 = w0).
Proof.
  cbv zeta. repeat split; try reflexivity.
  intros history w0. apply serve_all_id.
Qed.

(** ** The audit trail *)


(** ** What Reject and Resolve write *)


(** ** Verify and the verification timestamp *)



(** ** Who may transition a hazard *)

(** C4 at a concrete input. Authority a2 of the sample database has level
    NATIONAL and is inactive. Its bearer token passes
    [get_current_authority], the only dependency of the three routes, and
    the handler runs: a hazard id that does not exist is answered with
    HTTP 404, and Verify and Reject on h1 and Resolve on h2 are answered
    with the HTTP 400 of the status guard, the very answers the active
    STATE authority a1 gets. No request of a2 is answered with a
    permission error (HTTP 403), and a1 cannot transition a hazard
    either. *)
Theorem national_inactive_authority_is_not_refused_permission :
  let w := sample_world sample_db in
  let a2 := sample_authority "a2" NATIONAL false in
  Authority.level a2 = NATIONAL
  /\ Authority.is_active a2 = false
  /\ get_current_authority sample_jwt "bearer-a2" w = (Ok a2, w)
  /\ transition_endpoint sample_jwt VERIFY "bearer-a2" "no-such-hazard" no_notes w
     = (Raise (HTTPException HTTP_404_NOT_FOUND "Hazard no-such-hazard not found"), w)
  /\ transition_endpoint sample_jwt VERIFY "bearer-a2" "h1" no_notes w
     = (Raise (HTTPException HTTP_400_BAD_REQUEST
                 "Hazard is in HazardStatus.PENDING_AUTHORITY status, cannot verify"), w)
  /\ transition_endpoint sample_jwt REJECT "bearer-a2" "h1" no_notes w
     = (Raise (HTTPException HTTP_400_BAD_REQUEST
                 "Hazard is in HazardStatus.PENDING_AUTHORITY status, cannot reject"), w)
  /\ transition_endpoint sample_jwt RESOLVE "bearer-a2" "h2" no_notes w
     = (Raise (HTTPException HTTP_400_BAD_REQUEST
                 "Hazard is in HazardStatus.VERIFIED status, cannot resolve (must be VERIFIED)"),
        w)
  /\ (forall (action : AuthorityAction) (hazard_id : string),
        transition_endpoint sample_jwt action "bearer-a2" hazard_id no_notes w
        = transition_endpoint sample_jwt action "bearer-a1" hazard_id no_notes w).
Proof.
  cbv zeta. do 7 (split; [reflexivity|]).
  intros action hazard_id.
  unfold transition_endpoint, bind.
  change (get_current_authority sample_jwt "bearer-a2" (sample_world sample_db))
    with (Ok (sample_authority "a2" NATIONAL false), sample_world sample_db).
  change (get_current_authority sample_jwt "bearer-a1" (sample_world sample_db))
    with (Ok (sample_authority "a1" STATE true), sample_world sample_db).
  cbv beta iota.
  destruct (perform_outcome (sample_world sample_db) action hazard_id no_notes
              (sample_authority "a2" NATIONAL false)) as [e2 [H2 M2]].
  destruct (perform_outcome (sample_world sample_db) action hazard_id no_notes
              (sample_authority "a1" STATE true)) as [e1 [H1 M1]].
  rewrite H1, H2. f_equal. f_equal.
  destruct (hazard_row (db (sample_world sample_db)) hazard_id) as [h|].
  - destruct (HazardType_lookup (Hazard.hazard_type h)); congruence.
  - congruence.
Qed.

(** ** Reporting *)

Lemma float_in_range_iff (x : pyfloat) (lo hi : Q) :
  float_ge x lo && float_le x hi = true <-> in_closed_range x lo hi.
Proof.
  unfold in_closed_range. destruct x as [q| | |]; simpl.
  - rewrite andb_true_iff, !Qle_bool_iff. split.
    + intros [H1 H2]. exists q. auto.
    + intros [q' [Heq [H1 H2]]]. injection Heq as ->. auto.
  - split; [discriminate | intros [q [H _]]; discriminate H].
  - split; [discriminate | intros [q [H _]]; discriminate H].
  - split; [discriminate | intros [q [H _]]; discriminate H].
Qed.

Lemma latitude_in_range_iff (x : pyfloat) :
  Schemas.latitude_in_range x = true <-> in_closed_range x (Qmake (-90) 1) (Qmake 90 1).
Proof. apply float_in_range_iff. Qed.

Lemma longitude_in_range_iff (x : pyfloat) :
  Schemas.longitude_in_range x = true
  <-> in_closed_range x (Qmake (-180) 1) (Qmake 180 1).
Proof. apply float_in_range_iff. Qed.

Lemma advance_0 (w : World) : advance w 0 = w.
Proof. unfold advance. rewrite Nat.add_0_r. destruct w; reflexivity. Qed.

Lemma utcnow_advance (w : World) : utcnow w = (Ok (clock w (ticks w)), advance w 1).
Proof. unfold utcnow, advance. rewrite Nat.add_1_r. reflexivity. Qed.

Lemma validate_observed_at_accepts (w : World) (v : datetime) :
  observed_at_accepted w v ->
  Schemas.validate_observed_at v w = (Ok v, advance w 2).
Proof.
  intros [H1 H2]. unfold Schemas.validate_observed_at, bind, utcnow, ret, raise, advance.
  cbn [db clock ticks uuid_source uuid_drawn].
  destruct (Z.gtb_spec v (clock w (ticks w))) as [Hgt|_]; [lia|].
  cbn [db clock ticks uuid_source uuid_drawn].
  destruct (Z.gtb_spec (timedelta_days (clock w (S (ticks w))) v) 1) as [Hgt|_]; [lia|].
  do 2 f_equal. lia.
Qed.

Lemma validate_observed_at_rejects (w : World) (v : datetime) :
  ~ observed_at_accepted w v ->
  exists msg n,
    Schemas.validate_observed_at v w = (Raise (ValidationError msg), advance w n).
Proof.
  intros Hno. unfold Schemas.validate_observed_at, bind, utcnow, ret, raise, advance.
  cbn [db clock ticks uuid_source uuid_drawn].
  destruct (Z.gtb_spec v (clock w (ticks w))) as [Hgt|Hle].
  - exists "observed_at cannot be in the future", 1%nat.
    rewrite Nat.add_1_r. reflexivity.
  - cbn [db clock ticks uuid_source uuid_drawn].
    destruct (Z.gtb_spec (timedelta_days (clock w (S (ticks w))) v) 1) as [Hgt|Hle2].
    + exists "observed_at must be within last 24 hours", 2%nat.
      do 2 f_equal. lia.
    + exfalso. apply Hno. split; assumption.
Qed.

Lemma observed_at_accepted_dec (w : World) (v : datetime) :
  observed_at_accepted w v \/ ~ observed_at_accepted w v.
Proof. unfold observed_at_accepted. lia. Qed.

(** How old an accepted observation can be: the code compares whole days
    with 1, so anything younger than 48 hours at the second reading goes
    through, and only from 48 hours on is it refused. *)
Lemma timedelta_days_le_1_iff (now v : datetime) :
  timedelta_days now v <= 1 <-> now - v < 48 * MICROSECONDS_PER_HOUR.
Proof.
  unfold timedelta_days, MICROSECONDS_PER_DAY, MICROSECONDS_PER_HOUR.
  split; intros H.
  - destruct (Z.lt_ge_cases (now - v) (48 * 3600000000)) as [Hlt|Hge]; [exact Hlt|].
    assert (2 <= (now - v) / 86400000000) by (apply Z.div_le_lower_bound; lia).
    lia.
  - assert ((now - v) / 86400000000 < 2); [|lia].
    apply Z.div_lt_upper_bound; lia.
Qed.

(** The field [observed_at] of a report body: the validator on a given
    value, one clock reading for the default. *)
Lemma observed_field_cases (w : World) (body : Schemas.ReportBody) :
  (exists observed,
     match Schemas.body_observed_at body with
     | Some v => Schemas.validate_observed_at v
     | None => utcnow
     end w = (Ok observed, advance w (validation_readings body))
     /\ match Schemas.body_observed_at body with
        | Some v => observed = v /\ observed_at_accepted w v
        | None => observed = clock w (ticks w)
        end)
  \/ (exists v msg n,
        Schemas.body_observed_at body = Some v
        /\ ~ observed_at_accepted w v
        /\ match Schemas.body_observed_at body with
           | Some v => Schemas.validate_observed_at v
           | None => utcnow
           end w = (Raise (ValidationError msg), advance w n)).
Proof.
  unfold validation_readings.
  destruct (Schemas.body_observed_at body) as [v|].
  - destruct (observed_at_accepted_dec w v) as [Hyes|Hno].
    + left. exists v. split; [apply validate_observed_at_accepts, Hyes|].
      split; [reflexivity | exact Hyes].
    + right. destruct (validate_observed_at_rejects w v Hno) as [msg [n Hrun]].
      exists v, msg, n. split; [reflexivity|]. split; assumption.
  - left. exists (clock w (ticks w)). split; [apply utcnow_advance | reflexivity].
Qed.

(** Validation of a report body: the request is built when both
    coordinates are in range and the observation time passes, and a
    validation error is raised otherwise. The clock is read for
    [observed_at] in either case, and nothing is written. *)
Lemma HazardReportRequest_validate_cases (w : World) (body : Schemas.ReportBody) :
  (exists observed,
     Schemas.latitude_in_range (Schemas.body_latitude body) = true
     /\ Schemas.longitude_in_range (Schemas.body_longitude body) = true
     /\ match Schemas.body_observed_at body with
        | Some v => observed = v /\ observed_at_accepted w v
        | None => observed = clock w (ticks w)
        end
     /\ Schemas.HazardReportRequest_validate body w
        = (Ok (Schemas.mkHazardReportRequest
                 (Schemas.body_hazard_type body) (Schemas.body_latitude body)
                 (Schemas.body_longitude body) observed),
           advance w (validation_readings body)))
  \/ (exists msg n,
        Schemas.HazardReportRequest_validate body w
        = (Raise (ValidationError msg), advance w n)
        /\ (Schemas.latitude_in_range (Schemas.body_latitude body) = false
            \/ Schemas.longitude_in_range (Schemas.body_longitude body) = false
            \/ exists v, Schemas.body_observed_at body = Some v
                         /\ ~ observed_at_accepted w v)).
Proof.
  unfold Schemas.HazardReportRequest_validate, bind, attempt.
  destruct (observed_field_cases w body)
    as [[observed [Hrun Hobs]]|[v [msg [n [Hv [Hno Hrun]]]]]]; rewrite Hrun.
  - destruct (Schemas.latitude_in_range (Schemas.body_latitude body)) eqn:Hlat;
      destruct (Schemas.longitude_in_range (Schemas.body_longitude body)) eqn:Hlon;
      cbn [app].
    + left. exists observed. split; [reflexivity|]. split; [reflexivity|].
      split; [exact Hobs | reflexivity].
    + right. do 2 eexists. split; [reflexivity|]. right. left. reflexivity.
    + right. do 2 eexists. split; [reflexivity|]. left. reflexivity.
    + right. do 2 eexists. split; [reflexivity|]. left. reflexivity.
  - right.
    destruct (Schemas.latitude_in_range (Schemas.body_latitude body));
      destruct (Schemas.longitude_in_range (Schemas.body_longitude body));
      cbn [app]; do 2 eexists; (split; [reflexivity|]);
      right; right; exists v; split; assumption.
Qed.

(** Which reported types the hazards table can give back. *)
Lemma reported_type_loadable (t : Schemas.HazardType) :
  (exists m, HazardType_lookup (Schemas.HazardType_value t) = Some m)
  <-> t <> Schemas.DEBRIS /\ t <> Schemas.REPORTED.
Proof.
  destruct t; cbn; split.
  all: try (intros _; split; discriminate).
  all: try (intros _; eexists; reflexivity).
  all: try (intros [m Hm]; discriminate Hm).
  all: intros [H1 H2]; exfalso; try (apply H1; reflexivity); apply H2; reflexivity.
Qed.

(** The handler of a report: the row is committed with two clock
    readings, and then read again. When its type is one the model class
    knows the request is acknowledged after one more reading; otherwise the
    refresh raises LookupError, the row staying committed. *)
Lemma report_hazard_cases (w : World) (report : Schemas.HazardReportRequest) :
  let h := Hazard.mk (uuid_source w (uuid_drawn w))
                     (Schemas.HazardType_value (Schemas.hazard_type report))
                     (Schemas.latitude report) (Schemas.longitude report)
                     (Some (Schemas.observed_at report)) PENDING_AUTHORITY
                     (clock w (ticks w)) (clock w (S (ticks w))) None in
  let d := mkDb (hazards (db w) ++ [h]) (authorities (db w))
                (authority_verifications (db w)) (audit_logs (db w)) in
  (loadable h
   /\ report_hazard report w
      = (Ok (mkReportAck "received" "Hazard report sent to safety team"
                         (uuid_source w (uuid_drawn w)) (clock w (S (S (ticks w))))),
         mkWorld d (clock w) (S (S (S (ticks w)))) (uuid_source w) (S (uuid_drawn w))))
  \/ (~ loadable h
      /\ report_hazard report w
         = (Raise (LookupError (Schemas.HazardType_value (Schemas.hazard_type report))),
            mkWorld d (clock w) (S (S (ticks w))) (uuid_source w) (S (uuid_drawn w)))).
Proof.
  cbv zeta.
  unfold report_hazard, flush_hazard_insert, notify_authorities_of_hazard, load_hazard,
    loadable, bind, ret, raise, get_db, put_db, set_db, utcnow, uuid4.
  cbn [db clock ticks uuid_source uuid_drawn hazards authorities
       authority_verifications audit_logs Hazard.hazard_type Hazard.id row fst snd].
  destruct (HazardType_lookup (Schemas.HazardType_value (Schemas.hazard_type report)))
    as [m|].
  - left. split; [exists m; reflexivity | reflexivity].
  - right. split; [intros [m Hm]; discriminate Hm | reflexivity].
Qed.

(** A report either fails validation, writing nothing, or commits one
    PENDING_AUTHORITY hazard; the commit is acknowledged when the row can
    be read back and answered with LookupError when it cannot. *)
Lemma report_endpoint_cases (w : World) (body : Schemas.ReportBody) :
  (exists msg n,
     report_endpoint body w = (Raise (ValidationError msg), advance w n)
     /\ (Schemas.latitude_in_range (Schemas.body_latitude body) = false
         \/ Schemas.longitude_in_range (Schemas.body_longitude body) = false
         \/ exists v, Schemas.body_observed_at body = Some v
                      /\ ~ observed_at_accepted w v))
  \/ (exists observed,
        Schemas.latitude_in_range (Schemas.body_latitude body) = true
        /\ Schemas.longitude_in_range (Schemas.body_longitude body) = true
        /\ match Schemas.body_observed_at body with
           | Some v => observed = v /\ observed_at_accepted w v
           | None => observed = clock w (ticks w)
           end
        /\ ((loadable (reported_hazard w body observed)
             /\ exists ack,
                  report_endpoint body w
                  = (Ok ack, reported_world w body (reported_hazard w body observed) 1)
                  /\ ack_hazard_id ack = uuid_source w (uuid_drawn w))
            \/ (~ loadable (reported_hazard w body observed)
                /\ report_endpoint body w
                   = (Raise (LookupError
                               (Schemas.HazardType_value (Schemas.body_hazard_type body))),
                      reported_world w body (reported_hazard w body observed) 0)))).
Proof.
  unfold report_endpoint, bind.
  destruct (HazardReportRequest_validate_cases w body)
    as [[observed [Hlat [Hlon [Hobs Hrun]]]]|[msg [n [Hrun Hwhy]]]]; rewrite Hrun.
  - right. exists observed. split; [exact Hlat|]. split; [exact Hlon|].
    split; [exact Hobs|].
    pose proof (report_hazard_cases (advance w (validation_readings body))
                  (Schemas.mkHazardReportRequest
                     (Schemas.body_hazard_type body) (Schemas.body_latitude body)
                     (Schemas.body_longitude body) observed)) as Hcases.
    cbv zeta in Hcases.
    cbn [advance db clock ticks uuid_source uuid_drawn Schemas.hazard_type
         Schemas.latitude Schemas.longitude Schemas.observed_at] in Hcases.
    unfold reported_world, reported_hazard.
    replace (ticks w + validation_readings body + 1)%nat
      with (S (ticks w + validation_readings body)) by lia.
    replace (ticks w + validation_readings body + 2 + 1)%nat
      with (S (S (S (ticks w + validation_readings body)))) by lia.
    replace (ticks w + validation_readings body + 2 + 0)%nat
      with (S (S (ticks w + validation_readings body))) by lia.
    destruct Hcases as [[Hl Hok]|[Hno Hfail]].
    + left. split; [exact Hl|]. eexists. split; [exact Hok | reflexivity].
    + right. split; [exact Hno | exact Hfail].
  - left. exists msg, n. split; [reflexivity | exact Hwhy].
Qed.

(** C6 at a concrete input. A report whose observed_at lies 30 hours before
    the clock reading of the request is more than 24 hours old, yet it
    passes validation and a hazard carrying that observation time is
    created. (At 48 hours the same report is refused.) *)
Theorem report_accepts_observation_30_hours_old :
  let now := clock (sample_world sample_db) 0 in
  let observed := now - 30 * MICROSECONDS_PER_HOUR in
  24 * MICROSECONDS_PER_HOUR < now - observed
  /\ (exists ack w' h,
        report_endpoint (sample_report (Some observed)) (sample_world sample_db)
        = (Ok ack, w')
        /\ hazards (db w') = (hazards sample_db ++ [h])%list
        /\ Hazard.id h = ack_hazard_id ack
        /\ Hazard.observed_at h = Some observed
        /\ Hazard.status h = PENDING_AUTHORITY)
  /\ (exists msg w',
        report_endpoint (sample_report (Some (now - 48 * MICROSECONDS_PER_HOUR)))
                        (sample_world sample_db)
        = (Raise (ValidationError msg), w')
        /\ db w' = sample_db).
Proof.
  cbv zeta. split; [cbv; reflexivity|]. split.
  - do 3 eexists. split; [cbv; reflexivity|]. repeat split.
  - do 2 eexists. split; [cbv; reflexivity|]. reflexivity.
Qed.

(** C7. For every state and every report body: when the latitude lies in
    [-90, 90], the longitude in [-180, 180] and a given observed_at passes
    its window check, the request commits exactly one hazard, whose status
    is PENDING_AUTHORITY, whose type is the one reported, whose created_at
    and updated_at are the clock readings taken at the insertion, whose
    coordinates are those reported and whose resolved_at is null, the other
    tables being untouched; the request is acknowledged with the id of
    that hazard when the reported type is ACCIDENT, POTHOLE or ROADBLOCK,
    and for DEBRIS and REPORTED, which the model class does not know, it
    ends in a LookupError after the commit. When the latitude or the
    longitude is out of range (or not a number) the request fails with a
    validation error and the database is unchanged. *)
Theorem report_creates_pending_hazard_or_rejects_coordinates :
  forall (w : World) (body : Schemas.ReportBody),
    (in_closed_range (Schemas.body_latitude body) (Qmake (-90) 1) (Qmake 90 1) ->
     in_closed_range (Schemas.body_longitude body) (Qmake (-180) 1) (Qmake 180 1) ->
     (forall v, Schemas.body_observed_at body = Some v -> observed_at_accepted w v) ->
     exists outcome w' h,
       report_endpoint body w = (outcome, w')
       /\ hazards (db w') = (hazards (db w) ++ [h])%list
       /\ authorities (db w') = authorities (db w)
       /\ authority_verifications (db w') = authority_verifications (db w)
       /\ audit_logs (db w') = audit_logs (db w)
       /\ Hazard.status h = PENDING_AUTHORITY
       /\ Hazard.hazard_type h = Schemas.HazardType_value (Schemas.body_hazard_type body)
       /\ Hazard.created_at h = clock w (ticks w + validation_readings body)%nat
       /\ Hazard.updated_at h = clock w (ticks w + validation_readings body + 1)%nat
       /\ Hazard.latitude h = Schemas.body_latitude body
       /\ Hazard.longitude h = Schemas.body_longitude body
       /\ Hazard.resolved_at h = None
       /\ match outcome with
          | Ok ack =>
              ack_hazard_id ack = Hazard.id h
              /\ Schemas.body_hazard_type body <> Schemas.DEBRIS
              /\ Schemas.body_hazard_type body <> Schemas.REPORTED
          | Raise e =>
              e = LookupError (Hazard.hazard_type h)
              /\ (Schemas.body_hazard_type body = Schemas.DEBRIS
                  \/ Schemas.body_hazard_type body = Schemas.REPORTED)
          end)
    /\ (~ in_closed_range (Schemas.body_latitude body) (Qmake (-90) 1) (Qmake 90 1)
        \/ ~ in_closed_range (Schemas.body_longitude body) (Qmake (-180) 1) (Qmake 180 1) ->
        exists msg w',
          report_endpoint body w = (Raise (ValidationError msg), w')
          /\ db w' = db w).
Proof.
  intros w body. split.
  - intros Hlat Hlon Hobs.
    apply latitude_in_range_iff in Hlat. apply longitude_in_range_iff in Hlon.
    destruct (report_endpoint_cases w body)
      as [[msg [n [_ [Hbad|[Hbad|[v [Hv Hno]]]]]]]|[observed [_ [_ [_ Hrun]]]]].
    + rewrite Hlat in Hbad. discriminate Hbad.
    + rewrite Hlon in Hbad. discriminate Hbad.
    + exfalso. exact (Hno (Hobs v Hv)).
    + destruct Hrun as [[Hl [ack [Hrun Hack]]]|[Hno Hrun]].
      * exists (Ok ack), (reported_world w body (reported_hazard w body observed) 1),
          (reported_hazard w body observed).
        split; [exact Hrun|].
        cbn [reported_world reported_hazard db hazards authorities
             authority_verifications audit_logs Hazard.status Hazard.hazard_type
             Hazard.created_at Hazard.updated_at Hazard.latitude Hazard.longitude
             Hazard.resolved_at Hazard.id].
        do 11 (split; [reflexivity|]). split; [exact Hack|].
        apply reported_type_loadable. exact Hl.
      * exists (Raise (LookupError
                         (Schemas.HazardType_value (Schemas.body_hazard_type body)))),
          (reported_world w body (reported_hazard w body observed) 0),
          (reported_hazard w body observed).
        split; [exact Hrun|].
        cbn [reported_world reported_hazard db hazards authorities
             authority_verifications audit_logs Hazard.status Hazard.hazard_type
             Hazard.created_at Hazard.updated_at Hazard.latitude Hazard.longitude
             Hazard.resolved_at Hazard.id].
        do 11 (split; [reflexivity|]). split; [reflexivity|].
        destruct (Schemas.body_hazard_type body) eqn:Ht;
          try (right; reflexivity); try (left; reflexivity);
          exfalso; apply Hno; unfold loadable, reported_hazard;
          cbn [Hazard.hazard_type]; rewrite Ht; eexists; reflexivity.
  - intros Hout.
    destruct (report_endpoint_cases w body)
      as [[msg [n [Hrun _]]]|[observed [Hlat [Hlon _]]]].
    + exists msg, (advance w n). split; [exact Hrun | reflexivity].
    + exfalso. destruct Hout as [H|H]; apply H.
      * apply latitude_in_range_iff, Hlat.
      * apply longitude_in_range_iff, Hlon.
Qed.

(** The theorem on the scenario of the specification (POTHOLE at 40.0,
    -74.0, observation time left out), which is acknowledged, and on a
    latitude of 91, which is refused. *)
Lemma report_sample :
  (exists outcome w' h,
     report_endpoint (sample_report None) (sample_world sample_db) = (outcome, w')
     /\ hazards (db w') = (hazards sample_db ++ [h])%list
     /\ Hazard.status h = PENDING_AUTHORITY
     /\ Hazard.created_at h = sample_clock 1
     /\ Hazard.updated_at h = sample_clock 2
     /\ match outcome with
        | Ok ack => ack_hazard_id ack = Hazard.id h
        | Raise _ => False
        end)
  /\ (exists msg w',
        report_endpoint
          (Schemas.mkReportBody Schemas.POTHOLE (Finite (Qmake 91 1))
                                (Finite (Qmake (-74) 1)) None)
          (sample_world sample_db)
        = (Raise (ValidationError msg), w')
        /\ db w' = sample_db).
Proof.
  split.
  - destruct (report_creates_pending_hazard_or_rejects_coordinates
                (sample_world sample_db) (sample_report None)) as [Hok _].
    destruct Hok as [outcome [w' [h H]]].
    + apply latitude_in_range_iff. reflexivity.
    + apply longitude_in_range_iff. reflexivity.
    + intros v Hv. discriminate Hv.
    + exists outcome, w', h.
      destruct H as [H1 [H2 [_ [_ [_ [H6 [_ [H8 [H9 [_ [_ [_ H13]]]]]]]]]]]].
      repeat split; try assumption.
      destruct outcome as [ack|e].
      * exact (proj1 H13).
      * destruct H13 as [_ [Ht|Ht]]; discriminate Ht.
  - destruct (report_creates_pending_hazard_or_rejects_coordinates
                (sample_world sample_db)
                (Schemas.mkReportBody Schemas.POTHOLE (Finite (Qmake 91 1))
                                      (Finite (Qmake (-74) 1)) None)) as [_ Hno].
    apply Hno. left. intros H. apply latitude_in_range_iff in H. discriminate H.
Defined.

(** ** Redeeming a verification token *)

(** The verification record has no attribute named used. *)
Lemma verification_has_no_used (v : AuthorityVerification.t) (w : World) :
  verification_getattr (load_verification v) "used" w
  = (Raise (AttributeError "AuthorityVerification" "used"), w).
Proof. reflexivity. Qed.

(** Every redemption ends in one of two ways: 404 when no record matches
    the hazard and the token, and an AttributeError on the first attribute
    read when one does. Neither writes anything. *)
Lemma verify_authority_token_outcome (w : World) (hazard_id token : string) :
  verify_authority_token hazard_id token w
  = match find (fun v => String.eqb (AuthorityVerification.hazard_id v) hazard_id
                         && String.eqb (AuthorityVerification.token v) token)
               (authority_verifications (db w)) with
    | None => (Raise (HTTPException HTTP_404_NOT_FOUND "Invalid verification token"), w)
    | Some _ => (Raise (AttributeError "AuthorityVerification" "used"), w)
    end.
Proof.
  unfold verify_authority_token, query_verification_first, bind, get_db, ret.
  destruct (find _ (authority_verifications (db w))); reflexivity.
Qed.

(** C8 at concrete inputs. With no matching record the redemption fails
    with 404. With the sample record of hazard h1, whose expiry lies before
    the clock reading, it does not fail with the expiry error: it stops on
    the read of the attribute used, which the record does not have. With
    the unexpired, never redeemed record of hazard h4 it stops the same
    way, so no redemption succeeds and no token is ever marked used. *)
Theorem redeem_stops_on_missing_attribute :
  verify_authority_token "h1" "no-such-token" (sample_world sample_db)
  = (Raise (HTTPException HTTP_404_NOT_FOUND "Invalid verification token"),
     sample_world sample_db)
  /\ (exists v,
        find (fun v => String.eqb (AuthorityVerification.hazard_id v) "h1"
                       && String.eqb (AuthorityVerification.token v) "tok-1")
             (authority_verifications sample_db) = Some v
        /\ AuthorityVerification.is_token_expired v (sample_clock 0) = true
        /\ verify_authority_token "h1" "tok-1" (sample_world sample_db)
           = (Raise (AttributeError "AuthorityVerification" "used"),
              sample_world sample_db))
  /\ (exists v,
        find (fun v => String.eqb (AuthorityVerification.hazard_id v) "h4"
                       && String.eqb (AuthorityVerification.token v) "tok-4")
             (authority_verifications sample_db) = Some v
        /\ AuthorityVerification.is_token_expired v (sample_clock 0) = false
        /\ AuthorityVerification.is_verified v = false
        /\ verify_authority_token "h4" "tok-4" (sample_world sample_db)
           = (Raise (AttributeError "AuthorityVerification" "used"),
              sample_world sample_db)).
Proof.
  split; [reflexivity|]. split.
  - eexists. split; [reflexivity|]. split; reflexivity.
  - eexists. split; [reflexivity|]. repeat split.
Qed.

(** ** Statistics *)

Lemma count_status_partition (d : Db) :
  (count_status d PENDING_AUTHORITY + count_status d VERIFIED
   + count_status d RESOLVED + count_status d REPORTED
   = List.length (hazards d))%nat.
Proof.
  unfold count_status. induction (hazards d) as [|h rows IH]; [reflexivity|].
  cbn [filter List.length]. rewrite !HazardStatus_value_eqb.
  destruct (Hazard.status h); cbn [HazardStatus_eqb List.length]; lia.
Qed.

(** C10. For every database state the statistics are returned without
    changing anything, each bucket counts the hazards of its status, the
    total equals pending_authority + verified + resolved, and the total
    falls short of the number of hazards by exactly the number of REPORTED
    ones: a REPORTED hazard is in no bucket and not in the total. *)
Theorem stats_total_is_sum_of_three_buckets :
  forall (w : World) (authority : Authority.t),
    exists st,
      get_authority_stats authority w = (Ok st, w)
      /\ pending_authority st = count_status (db w) PENDING_AUTHORITY
      /\ verified st = count_status (db w) VERIFIED
      /\ resolved st = count_status (db w) RESOLVED
      /\ total st = (pending_authority st + verified st + resolved st)%nat
      /\ (total st + count_status (db w) REPORTED = List.length (hazards (db w)))%nat.
Proof.
  intros w authority. eexists. split; [reflexivity|].
  cbn [pending_authority verified resolved total].
  repeat split. apply count_status_partition.
Qed.

(* ------------------------------------------------------------------ *)
(** * Further properties of the code *)

(** ** Ordering and completeness of the listings *)

Lemma insert_newest_first_perm (h : Hazard.t) (l : list Hazard.t) :
  Permutation (insert_newest_first h l) (h :: l).
Proof.
  induction l as [|x l IH]; simpl.
  - apply Permutation_refl.
  - destruct (Hazard.created_at x <=? Hazard.created_at h).
    + apply Permutation_refl.
    + eapply Permutation_trans; [apply perm_skip, IH | apply perm_swap].
Qed.

Lemma order_by_created_at_desc_perm (l : list Hazard.t) :
  Permutation (order_by_created_at_desc l) l.
Proof.
  induction l as [|x l IH]; simpl.
  - apply perm_nil.
  - eapply Permutation_trans; [apply insert_newest_first_perm | apply perm_skip, IH].
Qed.

Lemma insert_oldest_first_perm (h : Hazard.t) (l : list Hazard.t) :
  Permutation (insert_oldest_first h l) (h :: l).
Proof.
  induction l as [|x l IH]; simpl.
  - apply Permutation_refl.
  - destruct (Hazard.created_at h <=? Hazard.created_at x).
    + apply Permutation_refl.
    + eapply Permutation_trans; [apply perm_skip, IH | apply perm_swap].
Qed.

Lemma insert_oldest_first_sorted (h : Hazard.t) (l : list Hazard.t) :
  StronglySorted older_or_same l ->
  StronglySorted older_or_same (insert_oldest_first h l).
Proof.
  induction 1 as [|y l Hs IH Hy]; simpl.
  - constructor; constructor.
  - destruct (Z.leb_spec (Hazard.created_at h) (Hazard.created_at y)) as [Hle|Hgt].
    + constructor; [constructor; assumption|].
      constructor; [exact Hle|].
      rewrite Forall_forall in Hy |- *. intros z Hz.
      specialize (Hy z Hz). unfold older_or_same in *. lia.
    + constructor; [exact IH|].
      rewrite Forall_forall in Hy |- *. intros z Hz.
      apply (Permutation_in _ (insert_oldest_first_perm h l)) in Hz.
      destruct Hz as [<-|Hz]; [unfold older_or_same; lia | apply Hy, Hz].
Qed.

Lemma order_by_created_at_asc_perm (l : list Hazard.t) :
  Permutation (order_by_created_at_asc l) l.
Proof.
  induction l as [|x l IH]; simpl.
  - apply perm_nil.
  - eapply Permutation_trans; [apply insert_oldest_first_perm | apply perm_skip, IH].
Qed.

Lemma order_by_created_at_asc_sorted (l : list Hazard.t) :
  StronglySorted older_or_same (order_by_created_at_asc l).
Proof.
  induction l as [|x l IH]; simpl.
  - constructor.
  - apply insert_oldest_first_sorted, IH.
Qed.

Lemma count_status_verified (d : Db) :
  count_status d VERIFIED = List.length (verified_rows d).
Proof.
  unfold count_status, verified_rows. f_equal. apply filter_ext.
  intros h. apply HazardStatus_value_eqb.
Qed.

Lemma limit_rows_all {A} (limit : Z) (l : list A) :
  limit < 0 \/ Z.of_nat (List.length l) <= limit -> limit_rows limit l = l.
Proof.
  intros H. unfold limit_rows. destruct (Z.ltb_spec limit 0); [reflexivity|].
  apply firstn_all2. lia.
Qed.

Lemma sorted_app_order {A} (R : A -> A -> Prop) (a b : list A) :
  StronglySorted R (a ++ b) -> forall x y, In x a -> In y b -> R x y.
Proof.
  induction a as [|z a IH]; simpl; intros Hs x y Hx Hy; [contradiction|].
  inversion Hs as [|? ? Hs' Hall]; subst.
  destruct Hx as [<-|Hx].
  - rewrite Forall_forall in Hall. apply Hall, in_or_app. right. exact Hy.
  - apply IH; assumption.
Qed.

(** A list that GET /hazards/verified returns is the head of the VERIFIED
    rows, newest first. *)
Lemma driver_listing_ok_inv (w w' : World) (limit : Z) (hs : list Hazard.t) :
  get_verified_hazards_for_driver limit w = (Ok hs, w') ->
  w' = w /\ in_int64 limit
  /\ hs = limit_rows limit (order_by_created_at_desc (verified_rows (db w))).
Proof.
  intros Hrun.
  destruct (driver_listing_cases w limit)
    as [[_ H]|[[Hin [_ H]]|[_ [h [_ [_ H]]]]]]; rewrite H in Hrun.
  - discriminate Hrun.
  - injection Hrun as <- <-. split; [reflexivity|]. split; [exact Hin | reflexivity].
  - discriminate Hrun.
Qed.

(** X1. When the limit fits 64 bits, every VERIFIED hazard can be loaded
    and the limit is negative or at least the number of VERIFIED hazards,
    GET /hazards/verified leaves none of them out: the list it returns is a
    rearrangement of all the VERIFIED rows of the table. *)
Theorem driver_listing_shows_every_verified_hazard :
  forall (w : World) (limit : Z),
    in_int64 limit ->
    Forall loadable (verified_rows (db w)) ->
    limit < 0 \/ Z.of_nat (count_status (db w) VERIFIED) <= limit ->
    exists hs,
      get_verified_hazards_for_driver limit w = (Ok hs, w)
      /\ Permutation hs (verified_rows (db w)).
Proof.
  intros w limit Hin Hall Hlimit.
  assert (Hsel : limit_rows limit (order_by_created_at_desc (verified_rows (db w)))
                 = order_by_created_at_desc (verified_rows (db w))).
  { apply limit_rows_all.
    rewrite order_by_created_at_desc_length, <- count_status_verified. exact Hlimit. }
  destruct (driver_listing_cases w limit)
    as [[Hout _]|[[_ [_ Hrun]]|[_ [h [Hh [Hno _]]]]]].
  - contradiction.
  - eexists. split; [exact Hrun|]. rewrite Hsel. apply order_by_created_at_desc_perm.
  - exfalso. apply Hno. rewrite Forall_forall in Hall. apply Hall.
    rewrite Hsel in Hh. apply (proj1 (order_by_created_at_desc_In _ _)) in Hh. exact Hh.
Qed.

Lemma driver_listing_complete_sample :
  in_int64 (-1)
  /\ Forall loadable (verified_rows (db (sample_world sample_db)))
  /\ (-1 < 0 \/ Z.of_nat (count_status (db (sample_world sample_db)) VERIFIED) <= -1)
  /\ exists hs,
       get_verified_hazards_for_driver (-1) (sample_world sample_db)
       = (Ok hs, sample_world sample_db)
       /\ Permutation hs (verified_rows sample_db).
Proof.
  assert (Hin : in_int64 (-1)) by (unfold in_int64, INT64_MIN, INT64_MAX; lia).
  split; [exact Hin|]. split; [exact sample_verified_loadable|].
  split; [left; lia|].
  apply (driver_listing_shows_every_verified_hazard (sample_world sample_db) (-1) Hin
           sample_verified_loadable).
  left. lia.
Defined.

(** X2. Whatever the limit, the VERIFIED hazards that a list returned by
    GET /hazards/verified leaves out are the oldest ones: a VERIFIED row
    that is not returned was created no later than any row that is
    returned. *)
Theorem driver_listing_drops_only_older_hazards :
  forall (w w' : World) (limit : Z) (hs : list Hazard.t),
    get_verified_hazards_for_driver limit w = (Ok hs, w') ->
    forall shown hidden,
      In shown hs ->
      In hidden (verified_rows (db w)) ->
      ~ In hidden hs ->
      Hazard.created_at hidden <= Hazard.created_at shown.
Proof.
  intros w w' limit hs Hrun shown hidden Hshown Hhidden Hnot.
  destruct (driver_listing_ok_inv _ _ _ _ Hrun) as [_ [_ ->]].
  pose proof (order_by_created_at_desc_sorted (verified_rows (db w))) as Hsorted.
  apply (Permutation_in _ (Permutation_sym (order_by_created_at_desc_perm _))) in Hhidden.
  unfold limit_rows in *. destruct (limit <? 0); [contradiction|].
  rewrite <- (firstn_skipn (Z.to_nat limit)) in Hsorted, Hhidden.
  apply in_app_or in Hhidden. destruct Hhidden as [Hin|Hin]; [contradiction|].
  exact (sorted_app_order _ _ _ Hsorted shown hidden Hshown Hin).
Qed.

(** With limit 1 the sample database shows h4, created at 400, and leaves
    out h2, created at 200. *)
Lemma driver_listing_drops_sample :
  get_verified_hazards_for_driver 1 (sample_world sample_db)
  = (Ok [sample_hazard "h4" VERIFIED 400], sample_world sample_db)
  /\ In (sample_hazard "h2" VERIFIED 200) (verified_rows (db (sample_world sample_db)))
  /\ ~ In (sample_hazard "h2" VERIFIED 200) [sample_hazard "h4" VERIFIED 400]
  /\ Hazard.created_at (sample_hazard "h2" VERIFIED 200)
     <= Hazard.created_at (sample_hazard "h4" VERIFIED 400).
Proof.
  assert (Hin : In (sample_hazard "h2" VERIFIED 200)
                   (verified_rows (db (sample_world sample_db))))
    by (left; reflexivity).
  assert (Hout : ~ In (sample_hazard "h2" VERIFIED 200)
                      [sample_hazard "h4" VERIFIED 400])
    by (intros [H|[]]; discriminate H).
  split; [reflexivity|]. split; [exact Hin|]. split; [exact Hout|].
  exact (driver_listing_drops_only_older_hazards
           (sample_world sample_db) (sample_world sample_db) 1
           [sample_hazard "h4" VERIFIED 400] eq_refl
           (sample_hazard "h4" VERIFIED 400) (sample_hazard "h2" VERIFIED 200)
           (or_introl eq_refl) Hin Hout).
Defined.

(** X3. The triage queue of db.py, [get_pending_hazards], changes nothing
    and ends in one of two ways. When every PENDING_AUTHORITY row can be
    loaded it returns each of them exactly as often as the table holds it
    and nothing else, oldest first. Otherwise it raises LookupError on a
    PENDING_AUTHORITY row whose stored type [models.HazardType] does not
    know. *)
Theorem pending_queue_is_complete_and_oldest_first :
  forall (w : World),
    match get_pending_hazards w with
    | (Ok hs, w') =>
        w' = w
        /\ Forall loadable (pending_rows (db w))
        /\ Permutation hs (pending_rows (db w))
        /\ StronglySorted older_or_same hs
        /\ (forall h, In h hs <->
                      In h (hazards (db w)) /\ Hazard.status h = PENDING_AUTHORITY)
    | (Raise e, w') =>
        w' = w
        /\ exists h,
             In h (hazards (db w))
             /\ Hazard.status h = PENDING_AUTHORITY
             /\ ~ loadable h
             /\ e = LookupError (Hazard.hazard_type h)
    end.
Proof.
  intros w. unfold get_pending_hazards, bind, get_db, ret.
  fold (pending_rows (db w)).
  pose proof (order_by_created_at_asc_perm (pending_rows (db w))) as Hperm.
  assert (Hmem : forall h, In h (order_by_created_at_asc (pending_rows (db w))) <->
                           In h (hazards (db w)) /\ Hazard.status h = PENDING_AUTHORITY).
  { intros h. split.
    - intros Hin. apply (Permutation_in _ Hperm) in Hin.
      unfold pending_rows in Hin. apply (proj1 (filter_In _ _ _)) in Hin.
      destruct Hin as [Hin Hst]. split; [exact Hin | apply HazardStatus_eqb_eq, Hst].
    - intros [Hin Hst]. apply (Permutation_in _ (Permutation_sym Hperm)).
      unfold pending_rows. apply filter_In. split; [exact Hin|].
      apply HazardStatus_eqb_eq, Hst. }
  destruct (mapM_load_hazard_cases (order_by_created_at_asc (pending_rows (db w))) w)
    as [[Hall Hload]|[h [Hh [Hno Hload]]]]; rewrite Hload; cbv beta iota.
  - rewrite map_row_fresh. split; [reflexivity|]. split; [|split; [exact Hperm|split]].
    + rewrite Forall_forall in Hall |- *. intros h Hin. apply Hall.
      apply (Permutation_in _ (Permutation_sym Hperm)), Hin.
    + apply order_by_created_at_asc_sorted.
    + exact Hmem.
  - split; [reflexivity|]. exists h. apply Hmem in Hh. destruct Hh as [H1 H2].
    repeat split; assumption.
Qed.

(** ** What each request does to the state *)

(** What any request leaves behind: the clock and the uuid source are the
    same, the clock has not been wound back, and the database is
    untouched or has one more hazard, the one a report committed. *)
Lemma handle_cases (r : Request) (w : World) :
  clock (handle r w) = clock w
  /\ uuid_source (handle r w) = uuid_source w
  /\ (ticks w <= ticks (handle r w))%nat
  /\ (db (handle r w) = db w
      \/ (exists body observed extra,
            r = ReportRequest body
            /\ handle r w
               = reported_world w body (reported_hazard w body observed) extra)).
Proof.
  destruct r as [body|call|hazard_id token]; cbn [handle].
  - destruct (report_endpoint_cases w body)
      as [[msg [n [Hno _]]]|[observed [_ [_ [_ [[_ [ack [Hok _]]]|[_ Hfail]]]]]]].
    + rewrite Hno. cbn [snd advance clock uuid_source ticks db].
      repeat split; try lia. left. reflexivity.
    + rewrite Hok. cbn [snd reported_world clock uuid_source ticks].
      repeat split; try lia. right. exists body, observed, 1%nat. split; reflexivity.
    + rewrite Hfail. cbn [snd reported_world clock uuid_source ticks].
      repeat split; try lia. right. exists body, observed, 0%nat. split; reflexivity.
  - rewrite serve_id. repeat split; try lia. left. reflexivity.
  - rewrite verify_authority_token_outcome.
    destruct (find _ (authority_verifications (db w))); cbn [snd];
      repeat split; try lia; left; reflexivity.
Qed.

Lemma handle_all_cons (r : Request) (requests : list Request) (w : World) :
  handle_all (r :: requests) w = handle_all requests (handle r w).
Proof. reflexivity. Qed.

(** ** Invariants of the persisted state *)

(** X4. No request ever writes the authorities table or the verification
    table: after any sequence of reports, transitions and token
    redemptions both tables are what they were. In particular no
    verification record is ever marked verified, used or expired. *)
Theorem requests_never_write_authorities_or_verifications :
  forall (requests : list Request) (w : World),
    authorities (db (handle_all requests w)) = authorities (db w)
    /\ authority_verifications (db (handle_all requests w))
       = authority_verifications (db w).
Proof.
  induction requests as [|r requests IH]; intros w; [split; reflexivity|].
  rewrite handle_all_cons.
  destruct (IH (handle r w)) as [IH1 IH2]. rewrite IH1, IH2.
  destruct (handle_cases r w) as [_ [_ [_ Hdb]]].
  destruct Hdb as [Hsame|[body [observed [extra [_ Hw]]]]].
  - rewrite Hsame. split; reflexivity.
  - rewrite Hw. split; reflexivity.
Qed.

(** X5. Hazards are never deleted and never change identity: after any
    sequence of requests the ids of the hazards table are the ids it had,
    in the same order, followed by those of the hazards reported since, at
    most one per report request. *)
Theorem hazards_are_never_deleted :
  forall (requests : list Request) (w : World),
    exists added,
      map Hazard.id (hazards (db (handle_all requests w)))
      = (map Hazard.id (hazards (db w)) ++ added)%list
      /\ (List.length added <= report_requests requests)%nat.
Proof.
  induction requests as [|r requests IH]; intros w.
  - exists []. rewrite app_nil_r. split; [reflexivity | apply Nat.le_refl].
  - rewrite handle_all_cons. destruct (IH (handle r w)) as [added [Hids Hlen]].
    destruct (handle_cases r w) as [_ [_ [_ Hdb]]].
    destruct Hdb as [Hsame|[body [observed [extra [Hr Hw]]]]].
    + exists added. rewrite Hids, Hsame. split; [reflexivity|].
      unfold report_requests in *. cbn [filter]. destruct r; cbn [List.length]; lia.
    + exists (Hazard.id (reported_hazard w body observed) :: added).
      rewrite Hids, Hw. cbn [reported_world db hazards].
      rewrite map_app, <- app_assoc. split; [reflexivity|].
      subst r. unfold report_requests in *. cbn [filter List.length]. lia.
Qed.

(** X6. The REPORTED status is never produced: when no hazard of the table
    is REPORTED, none is after any sequence of requests. *)
Theorem reported_status_is_never_produced :
  forall (requests : list Request) (w : World),
    (forall h, In h (hazards (db w)) -> Hazard.status h <> REPORTED) ->
    forall h, In h (hazards (db (handle_all requests w))) ->
              Hazard.status h <> REPORTED.
Proof.
  induction requests as [|r requests IH]; intros w Hinv; [exact Hinv|].
  rewrite handle_all_cons. apply IH.
  destruct (handle_cases r w) as [_ [_ [_ Hdb]]].
  destruct Hdb as [Hsame|[body [observed [extra [_ Hw]]]]].
  - rewrite Hsame. exact Hinv.
  - rewrite Hw. cbn [reported_world db hazards]. intros h Hin.
    apply in_app_or in Hin. destruct Hin as [Hin|[<-|[]]]; [apply Hinv, Hin|].
    discriminate.
Qed.

Lemma reported_status_sample :
  (forall h, In h (hazards (db (sample_world (mkDb [] [] [] [])))) ->
             Hazard.status h <> REPORTED)
  /\ forall h,
       In h (hazards (db (handle_all sample_requests (sample_world (mkDb [] [] [] []))))) ->
       Hazard.status h <> REPORTED.
Proof.
  assert (H0 : forall h, In h (hazards (db (sample_world (mkDb [] [] [] [])))) ->
                         Hazard.status h <> REPORTED) by (intros h []).
  split; [exact H0|].
  exact (reported_status_is_never_produced sample_requests
           (sample_world (mkDb [] [] [] [])) H0).
Defined.


(** X8. With a clock that never runs backwards, the timestamps of the
    hazards stay ordered under any sequence of requests: every hazard's
    updated_at is at or after its created_at and not after the next clock
    reading. *)
Theorem timestamps_stay_ordered :
  forall (requests : list Request) (w : World),
    clock_monotone w ->
    timestamps_ordered w ->
    timestamps_ordered (handle_all requests w).
Proof.
  induction requests as [|r requests IH]; intros w Hmono Hinv; [exact Hinv|].
  rewrite handle_all_cons.
  destruct (handle_cases r w) as [Hclock [_ [Hticks Hdb]]].
  apply IH.
  - unfold clock_monotone. rewrite Hclock. exact Hmono.
  - unfold timestamps_ordered. rewrite Hclock.
    destruct Hdb as [Hsame|[body [observed [extra [_ Hw]]]]].
    + rewrite Hsame. intros h Hin. destruct (Hinv h Hin) as [H1 H2].
      split; [exact H1|]. pose proof (Hmono _ _ Hticks). lia.
    + rewrite Hw. cbn [reported_world db hazards ticks]. intros h Hin.
      apply in_app_or in Hin. destruct Hin as [Hin|[<-|[]]].
      * destruct (Hinv h Hin) as [H1 H2]. split; [exact H1|].
        pose proof (Hmono (ticks w) (ticks w + validation_readings body + 2 + extra)%nat
                          ltac:(lia)). lia.
      * cbn [reported_hazard Hazard.created_at Hazard.updated_at]. split.
        -- apply Hmono. lia.
        -- apply Hmono. lia.
Qed.

Lemma sample_clock_min (k : nat) :
  sample_clock k = 1700000000000000 + Z.of_nat (Nat.min k 8).
Proof.
  do 8 (destruct k as [|k]; [reflexivity|]).
  destruct k; reflexivity.
Qed.

Lemma sample_clock_monotone (d : Db) : clock_monotone (sample_world d).
Proof.
  intros i j Hij. cbn [sample_world clock]. rewrite !sample_clock_min. lia.
Qed.

Lemma timestamps_ordered_sample :
  clock_monotone (sample_world sample_db)
  /\ timestamps_ordered (sample_world sample_db)
  /\ timestamps_ordered (handle_all sample_requests (sample_world sample_db)).
Proof.
  assert (H0 : timestamps_ordered (sample_world sample_db)).
  { intros h Hin. cbn [sample_world db clock ticks]. rewrite sample_clock_min.
    cbn [sample_db hazards In] in Hin.
    repeat (destruct Hin as [<-|Hin];
            [cbn [sample_hazard Hazard.created_at Hazard.updated_at]; lia|]).
    destruct Hin. }
  split; [apply sample_clock_monotone|]. split; [exact H0|].
  exact (timestamps_stay_ordered sample_requests (sample_world sample_db)
           (sample_clock_monotone sample_db) H0).
Defined.

(** ** Statistics over time *)

(** X15. A report that commits a hazard shows up in the statistics as one
    more pending hazard and nothing else: pending_authority and total grow
    by one, verified and resolved are unchanged. This is so when the
    report is acknowledged and also when it ends in a LookupError, which
    is raised after the commit. A report that fails validation changes no
    figure. *)
Theorem report_counts_as_one_pending :
  forall (w : World) (body : Schemas.ReportBody) (authority : Authority.t),
    exists st st',
      get_authority_stats authority w = (Ok st, w)
      /\ get_authority_stats authority (snd (report_endpoint body w))
         = (Ok st', snd (report_endpoint body w))
      /\ verified st' = verified st
      /\ resolved st' = resolved st
      /\ match fst (report_endpoint body w) with
         | Ok _ | Raise (LookupError _) =>
             pending_authority st' = S (pending_authority st)
             /\ total st' = S (total st)
         | Raise _ =>
             pending_authority st' = pending_authority st
             /\ total st' = total st
         end.
Proof.
  intros w body authority. do 2 eexists. split; [reflexivity|]. split; [reflexivity|].
  cbn [verified resolved pending_authority total].
  assert (Hc : forall observed s,
             count_status
               (mkDb (hazards (db w) ++ [reported_hazard w body observed])
                     (authorities (db w)) (authority_verifications (db w))
                     (audit_logs (db w))) s
             = (count_status (db w) s
                + if HazardStatus_eqb PENDING_AUTHORITY s then 1 else 0)%nat).
  { intros observed s. unfold count_status. cbn [hazards].
    rewrite filter_app, length_app. cbn [filter reported_hazard Hazard.status].
    rewrite HazardStatus_value_eqb.
    destruct (HazardStatus_eqb PENDING_AUTHORITY s); reflexivity. }
  destruct (report_endpoint_cases w body)
    as [[msg [n [Hno _]]]|[observed [_ [_ [_ [[_ [ack [Hok _]]]|[_ Hfail]]]]]]].
  - rewrite Hno. cbn [fst snd advance db]. repeat split.
  - rewrite Hok. cbn [fst snd reported_world db].
    rewrite !Hc. cbn [HazardStatus_eqb]. repeat split; lia.
  - rewrite Hfail. cbn [fst snd reported_world db].
    rewrite !Hc. cbn [HazardStatus_eqb]. repeat split; lia.
Qed.

(** ** Authentication *)

(** X17. [get_current_authority] never writes and never answers with
    anything but HTTP 401 when it fails; when it succeeds, the authority it
    returns is a row of the authorities table whose id is the authority_id
    claim of the decoded token. *)
Theorem get_current_authority_contract :
  forall (jwt_decode : string -> JwtOutcome) (w : World) (credentials : string),
    match get_current_authority jwt_decode credentials w with
    | (Ok a, w') =>
        w' = w
        /\ In a (authorities (db w))
        /\ exists p, jwt_decode credentials = JwtPayload p
                     /\ payload_get "authority_id" p = Some (Authority.id a)
    | (Raise e, w') =>
        w' = w /\ exists detail, e = HTTPException HTTP_401_UNAUTHORIZED detail
    end.
Proof.
  intros jwt_decode w credentials.
  unfold get_current_authority, decode_access_token, query_authority_first,
    bind, ret, raise, get_db.
  destruct (jwt_decode credentials) as [p| |] eqn:Hjwt; cbn.
  - destruct (payload_get "authority_id" p) as [authority_id|] eqn:Hp; cbn.
    + destruct (find _ (authorities (db w))) as [a|] eqn:Hfind; cbn.
      * apply find_some in Hfind. destruct Hfind as [Hin Heq].
        apply String.eqb_eq in Heq.
        split; [reflexivity|]. split; [exact Hin|].
        exists p. split; [reflexivity|]. rewrite Heq. exact Hp.
      * split; [reflexivity | eexists; reflexivity].
    + split; [reflexivity | eexists; reflexivity].
  - split; [reflexivity | eexists; reflexivity].
  - split; [reflexivity | eexists; reflexivity].
Qed.

(** X18. A transition request whose bearer token does not decode, carries
    no authority_id or names no stored authority is answered with HTTP 401
    and changes nothing: the handler is not run. *)
Theorem unauthenticated_transition_changes_nothing :
  forall (jwt_decode : string -> JwtOutcome) (w : World) (action : AuthorityAction)
         (credentials hazard_id : string)
         (request : Schemas.AuthorityVerificationRequest),
    credentials_rejected jwt_decode credentials (db w) ->
    exists detail,
      transition_endpoint jwt_decode action credentials hazard_id request w
      = (Raise (HTTPException HTTP_401_UNAUTHORIZED detail), w).
Proof.
  intros jwt_decode w action credentials hazard_id request Hrej.
  unfold credentials_rejected in Hrej.
  unfold transition_endpoint, get_current_authority, decode_access_token,
    query_authority_first, bind, ret, raise, get_db.
  destruct (jwt_decode credentials) as [p| |]; cbn.
  - destruct (payload_get "authority_id" p) as [authority_id|]; cbn.
    + rewrite Hrej. cbn. eexists. reflexivity.
    + eexists. reflexivity.
  - eexists. reflexivity.
  - eexists. reflexivity.
Qed.

Lemma unauthenticated_transition_sample :
  credentials_rejected sample_jwt "forged" (db (sample_world sample_db))
  /\ exists detail,
       transition_endpoint sample_jwt VERIFY "forged" "h1" no_notes
                           (sample_world sample_db)
       = (Raise (HTTPException HTTP_401_UNAUTHORIZED detail), sample_world sample_db).
Proof.
  split; [exact I|].
  exact (unauthenticated_transition_changes_nothing sample_jwt (sample_world sample_db)
           VERIFY "forged" "h1" no_notes I).
Defined.

(** X19. [get_current_verifier] decides on the jurisdiction text alone: it
    hands the authority back exactly when that text is STATE or LOCAL and
    answers HTTP 403 otherwise, without writing; the level column and the
    active flag play no part, so two authorities with the same jurisdiction
    text get the same verdict. *)
Theorem get_current_verifier_reads_jurisdiction_text :
  forall (a : Authority.t) (w : World),
    (Authority.jurisdiction a = "STATE" \/ Authority.jurisdiction a = "LOCAL" ->
     get_current_verifier a w = (Ok a, w))
    /\ (Authority.jurisdiction a <> "STATE" ->
        Authority.jurisdiction a <> "LOCAL" ->
        get_current_verifier a w
        = (Raise (HTTPException HTTP_403_FORBIDDEN
                    "Insufficient permissions. VERIFIER role required."), w))
    /\ (forall b, Authority.jurisdiction b = Authority.jurisdiction a ->
                  match fst (get_current_verifier a w), fst (get_current_verifier b w) with
                  | Ok _, Ok _ | Raise _, Raise _ => True
                  | _, _ => False
                  end).
Proof.
  intros a w. unfold get_current_verifier, ret, raise.
  cbn [existsb AuthorityLevel_value]. split; [|split].
  - intros [H|H]; rewrite H; reflexivity.
  - intros H1 H2. apply String.eqb_neq in H1, H2. rewrite H1, H2. reflexivity.
  - intros b Hb. rewrite Hb.
    destruct (String.eqb (Authority.jurisdiction a) "STATE"
              || (String.eqb (Authority.jurisdiction a) "LOCAL" || false));
      cbn; exact I.
Qed.

Lemma get_current_verifier_sample :
  Authority.level (sample_authority "a1" STATE true) = STATE
  /\ get_current_verifier (sample_authority "a1" STATE true) (sample_world sample_db)
     = (Raise (HTTPException HTTP_403_FORBIDDEN
                 "Insufficient permissions. VERIFIER role required."),
        sample_world sample_db).
Proof.
  split; [reflexivity|].
  destruct (get_current_verifier_reads_jurisdiction_text
              (sample_authority "a1" STATE true) (sample_world sample_db))
    as [_ [Hno _]].
  apply Hno; discriminate.
Defined.

(** X20. Nobody can log in: class [Authority] maps no password_hash column,
    so [authenticate_authority] finds no hash to check for any email and
    password, and POST /auth/login always answers HTTP 401 with the
    message for wrong credentials, without reading the clock, issuing a
    token or writing anything. *)
Theorem login_never_succeeds :
  forall (jwt_encode : payload -> datetime -> string)
         (checkpw : string -> string -> bool)
         (request : AuthorityLoginRequest) (w : World),
    authenticate_authority checkpw (login_email request) (login_password request) w
    = (Ok None, w)
    /\ login_authority jwt_encode checkpw request w
       = (Raise (HTTPException HTTP_401_UNAUTHORIZED "Incorrect email or password"), w).
Proof.
  intros jwt_encode checkpw request w.
  assert (Hauth : authenticate_authority checkpw (login_email request)
                    (login_password request) w = (Ok None, w)).
  { unfold authenticate_authority, bind, get_db, ret.
    destruct (find _ (authorities (db w))); reflexivity. }
  split; [exact Hauth|].
  unfold login_authority, bind. rewrite Hauth. reflexivity.
Qed.

(** ** Validation of the observation time *)

(** X21. The exact window of [validate_observed_at]: a given observed_at is
    accepted, and handed back unchanged, if and only if it is not after the
    first clock reading and less than 48 hours before the second; in either
    case nothing is written. *)
Theorem observed_at_window_is_48_hours :
  forall (w : World) (v : datetime),
    (fst (Schemas.validate_observed_at v w) = Ok v
     <-> v <= clock w (ticks w)
         /\ clock w (S (ticks w)) - v < 48 * MICROSECONDS_PER_HOUR)
    /\ (forall r, fst (Schemas.validate_observed_at v w) = Ok r -> r = v)
    /\ db (snd (Schemas.validate_observed_at v w)) = db w.
Proof.
  intros w v.
  assert (Hacc : observed_at_accepted w v
                 <-> v <= clock w (ticks w)
                     /\ clock w (S (ticks w)) - v < 48 * MICROSECONDS_PER_HOUR).
  { unfold observed_at_accepted. rewrite timedelta_days_le_1_iff. tauto. }
  destruct (observed_at_accepted_dec w v) as [Hyes|Hno].
  - rewrite (validate_observed_at_accepts w v Hyes).
    cbn [fst snd advance db]. split; [tauto|]. split; [congruence | reflexivity].
  - destruct (validate_observed_at_rejects w v Hno) as [msg [n Hrun]].
    rewrite Hrun. cbn [fst snd advance db].
    split; [|split; [discriminate | reflexivity]].
    split; [discriminate | tauto].
Qed.

(** ** Token redemption *)

(** X22. POST /authority/verify-token never succeeds and never writes: for
    every state, hazard id and token it raises, either HTTP 404 (no record
    matches) or an AttributeError on the attribute used (a record matches),
    and the whole state, clock included, is as before. *)
Theorem token_redemption_never_succeeds :
  forall (w : World) (hazard_id token : string),
    exists e,
      verify_authority_token hazard_id token w = (Raise e, w)
      /\ (e = HTTPException HTTP_404_NOT_FOUND "Invalid verification token"
          \/ e = AttributeError "AuthorityVerification" "used").
Proof.
  intros w hazard_id token. rewrite verify_authority_token_outcome.
  destruct (find _ (authority_verifications (db w))); eexists; split;
    try reflexivity; [right | left]; reflexivity.
Qed.

(** ** The authority listing *)

Lemma from_attributes_cases (h : Hazard.t) (w : World) :
  match Hazard.observed_at h with
  | Some observed =>
      Schemas.HazardDetailResponse_from_attributes (mkHazardObj h []) w
      = (Ok (Schemas.mkHazardDetailResponse
               (Hazard.id h) (Hazard.hazard_type h) (Hazard.latitude h)
               (Hazard.longitude h) observed (Hazard.status h) None
               (Hazard.created_at h) (Hazard.updated_at h)), w)
  | None =>
      Schemas.HazardDetailResponse_from_attributes (mkHazardObj h []) w
      = (Raise (ValidationError "observed_at"), w)
  end.
Proof.
  unfold Schemas.HazardDetailResponse_from_attributes. cbn [row].
  destruct (Hazard.observed_at h); reflexivity.
Qed.

Lemma mapM_details (rows : list Hazard.t) (w : World) :
  (exists listed,
     mapM Schemas.HazardDetailResponse_from_attributes
          (map (fun h => mkHazardObj h []) rows) w
     = (Ok listed, w)
     /\ Forall2 detail_matches rows listed)
  \/ (exists msg h,
        mapM Schemas.HazardDetailResponse_from_attributes
             (map (fun h => mkHazardObj h []) rows) w
        = (Raise (ValidationError msg), w)
        /\ In h rows /\ Hazard.observed_at h = None).
Proof.
  induction rows as [|h rows IH]; cbn [map mapM].
  - left. exists []. split; [reflexivity | constructor].
  - pose proof (from_attributes_cases h w) as Hc. unfold bind.
    destruct (Hazard.observed_at h) as [observed|] eqn:Hobs.
    + destruct IH as [[listed [Hrun Hall]]|[msg [h' [Hrun [Hin Hnone]]]]].
      * left. eexists. split; [rewrite Hc, Hrun; reflexivity|].
        constructor; [|exact Hall].
        unfold detail_matches.
        cbn [Schemas.detail_id Schemas.detail_hazard_type Schemas.detail_latitude
             Schemas.detail_longitude Schemas.detail_observed_at Schemas.detail_status
             Schemas.detail_verified_at Schemas.detail_created_at
             Schemas.detail_updated_at].
        rewrite Hobs. repeat split.
      * right. exists msg, h'.
        split; [rewrite Hc, Hrun; reflexivity|].
        split; [right; exact Hin | exact Hnone].
    + right. exists "observed_at", h. split; [rewrite Hc; reflexivity|].
      split; [left; reflexivity | exact Hobs].
Qed.

Lemma Forall2_length_eq {A B} (R : A -> B -> Prop) (l1 : list A) (l2 : list B) :
  Forall2 R l1 l2 -> List.length l1 = List.length l2.
Proof. induction 1; cbn [List.length]; congruence. Qed.

(** X23. GET /authority/hazards, for every state, filter and limit, writes
    nothing and ends in one of four ways. It returns one detail record per
    selected row, in order: the rows are rows of the table, all of the
    filtered status when a filter is given, newest first, at most [limit]
    of them when the limit is not negative, and each record shows its
    row's columns with verified_at null. Or it raises OverflowError
    because the limit does not fit 64 bits. Or it raises LookupError on a
    row of the table whose stored type [models.HazardType] does not know.
    Or it fails on the response model because some hazard of the table has
    no observed_at. *)
Theorem authority_listing_contract :
  forall (w : World) (status_filter : option HazardStatus) (authority : Authority.t)
         (limit : Z),
    (exists rows listed,
       get_hazards_for_authority status_filter authority limit w = (Ok listed, w)
       /\ in_int64 limit
       /\ Forall2 detail_matches rows listed
       /\ (forall h, In h rows ->
             In h (hazards (db w))
             /\ forall s, status_filter = Some s -> Hazard.status h = s)
       /\ StronglySorted newer_or_same rows
       /\ (0 <= limit -> Z.of_nat (List.length listed) <= limit))
    \/ (~ in_int64 limit
        /\ get_hazards_for_authority status_filter authority limit w
           = (Raise (OverflowError "Python int too large to convert to SQLite INTEGER"),
              w))
    \/ (exists h,
          get_hazards_for_authority status_filter authority limit w
          = (Raise (LookupError (Hazard.hazard_type h)), w)
          /\ In h (hazards (db w))
          /\ ~ loadable h)
    \/ (exists msg h,
          get_hazards_for_authority status_filter authority limit w
          = (Raise (ValidationError msg), w)
          /\ In h (hazards (db w))
          /\ Hazard.observed_at h = None).
Proof.
  intros w status_filter authority limit.
  unfold get_hazards_for_authority, bind, get_db. cbv beta iota.
  set (query := match status_filter with
                | Some wanted =>
                    filter (fun h => String.eqb (HazardStatus_value (Hazard.status h))
                                                (HazardStatus_value wanted))
                           (hazards (db w))
                | None => hazards (db w)
                end).
  assert (Hquery : forall h, In h query ->
             In h (hazards (db w))
             /\ forall s, status_filter = Some s -> Hazard.status h = s).
  { intros h Hin. subst query. destruct status_filter as [wanted|].
    - apply (proj1 (filter_In _ _ _)) in Hin. destruct Hin as [Hin Heq].
      rewrite HazardStatus_value_eqb in Heq. apply HazardStatus_eqb_eq in Heq.
      split; [exact Hin|]. intros s Hs. injection Hs as <-. exact Heq.
    - split; [exact Hin|]. intros s Hs. discriminate Hs. }
  assert (Hrows : forall h, In h (limit_rows limit (order_by_created_at_desc query)) ->
                            In h query).
  { intros h Hin. apply limit_rows_In in Hin.
    apply (proj1 (order_by_created_at_desc_In _ _)) in Hin. exact Hin. }
  destruct (sql_limit_cases limit (order_by_created_at_desc query) w)
    as [[Hin Hrun]|[Hout Hrun]]; rewrite Hrun; cbv beta iota.
  2:{ right. left. split; [exact Hout | reflexivity]. }
  destruct (mapM_load_hazard_cases (limit_rows limit (order_by_created_at_desc query)) w)
    as [[Hall Hload]|[h [Hh [Hno Hload]]]]; rewrite Hload; cbv beta iota.
  2:{ right. right. left. exists h. split; [reflexivity|].
      split; [apply Hquery, Hrows, Hh | exact Hno]. }
  destruct (mapM_details (limit_rows limit (order_by_created_at_desc query)) w)
    as [[listed [Hdet Hmatch]]|[msg [h [Hdet [Hh Hnone]]]]].
  - left. exists (limit_rows limit (order_by_created_at_desc query)), listed.
    split; [exact Hdet|]. split; [exact Hin|]. split; [exact Hmatch|]. split; [|split].
    + intros h Hh. apply Hquery, Hrows, Hh.
    + apply limit_rows_sorted, order_by_created_at_desc_sorted.
    + intros Hlimit. rewrite <- (Forall2_length_eq _ _ _ Hmatch).
      apply limit_rows_bound, Hlimit.
  - right. right. right. exists msg, h. split; [exact Hdet|].
    split; [apply Hquery, Hrows, Hh | exact Hnone].
Qed.

(** ** Report, then look up *)

Lemma find_app_none {A} (f : A -> bool) (l1 l2 : list A) :
  find f l1 = None -> find f (l1 ++ l2) = find f l2.
Proof.
  induction l1 as [|x l1 IH]; simpl; [reflexivity|].
  destruct (f x); [discriminate | exact IH].
Qed.

Lemma report_endpoint_ok_inv (w w' : World) (body : Schemas.ReportBody) (ack : ReportAck) :
  report_endpoint body w = (Ok ack, w') ->
  exists observed,
    loadable (reported_hazard w body observed)
    /\ w' = reported_world w body (reported_hazard w body observed) 1
    /\ ack_hazard_id ack = uuid_source w (uuid_drawn w).
Proof.
  intros Hrun.
  destruct (report_endpoint_cases w body)
    as [[msg [n [Hno _]]]|[observed [_ [_ [_ [[Hl [ack' [Hok Hack]]]|[_ Hfail]]]]]]].
  - rewrite Hno in Hrun. discriminate Hrun.
  - rewrite Hok in Hrun. injection Hrun as <- <-. exists observed. repeat split; assumption.
  - rewrite Hfail in Hrun. discriminate Hrun.
Qed.

(** X25. Insert and look up agree: when a report is acknowledged and the id
    the generator gave it is not yet in the table, [get_hazard_by_id] on
    the acknowledged id returns the new hazard, PENDING_AUTHORITY with the
    reported coordinates; the hazard is among the PENDING_AUTHORITY rows,
    and [get_pending_hazards] has it in the queue when the rows that were
    pending before can be loaded. *)
Theorem reported_hazard_can_be_looked_up :
  forall (w w' : World) (body : Schemas.ReportBody) (ack : ReportAck),
    report_endpoint body w = (Ok ack, w') ->
    hazard_row (db w) (uuid_source w (uuid_drawn w)) = None ->
    exists h,
      get_hazard_by_id (ack_hazard_id ack) w' = (Ok (Some h), w')
      /\ Hazard.id h = ack_hazard_id ack
      /\ Hazard.status h = PENDING_AUTHORITY
      /\ Hazard.latitude h = Schemas.body_latitude body
      /\ Hazard.longitude h = Schemas.body_longitude body
      /\ In h (pending_rows (db w'))
      /\ (Forall loadable (pending_rows (db w)) ->
          exists queue, get_pending_hazards w' = (Ok queue, w') /\ In h queue).
Proof.
  intros w w' body ack Hrun Hfresh.
  destruct (report_endpoint_ok_inv _ _ _ _ Hrun) as [observed [Hl [-> Hack]]].
  set (h := reported_hazard w body observed) in *.
  assert (Hpending : pending_rows (db (reported_world w body h 1))
                     = (pending_rows (db w) ++ [h])%list).
  { unfold pending_rows. cbn [reported_world db hazards]. rewrite filter_app.
    reflexivity. }
  exists h.
  split; [|split; [|split; [|split; [|split; [|split]]]]].
  - unfold get_hazard_by_id, query_hazard_first, bind, get_db, ret.
    cbn [reported_world db hazards].
    unfold hazard_row in Hfresh. rewrite Hack, (find_app_none _ _ _ Hfresh).
    cbn [find]. replace (Hazard.id h) with (uuid_source w (uuid_drawn w)) by reflexivity.
    rewrite String.eqb_refl. rewrite (load_hazard_loadable h _ Hl). reflexivity.
  - rewrite Hack. reflexivity.
  - reflexivity.
  - reflexivity.
  - reflexivity.
  - rewrite Hpending. apply in_or_app. right. left. reflexivity.
  - intros Hall.
    assert (Hall' : Forall loadable
                      (order_by_created_at_asc
                         (pending_rows (db (reported_world w body h 1))))).
    { rewrite Forall_forall in Hall |- *. intros x Hx.
      apply (Permutation_in _ (order_by_created_at_asc_perm _)) in Hx.
      rewrite Hpending in Hx. apply in_app_or in Hx.
      destruct Hx as [Hx|[<-|[]]]; [apply Hall, Hx | exact Hl]. }
    unfold get_pending_hazards, bind, get_db, ret.
    fold (pending_rows (db (reported_world w body h 1))).
    destruct (mapM_load_hazard_cases
                (order_by_created_at_asc (pending_rows (db (reported_world w body h 1))))
                (reported_world w body h 1))
      as [[_ Hload]|[x [Hx [Hno _]]]].
    + rewrite Hload. cbv beta iota. rewrite map_row_fresh.
      eexists. split; [reflexivity|].
      apply (Permutation_in _ (Permutation_sym (order_by_created_at_asc_perm _))).
      rewrite Hpending. apply in_or_app. right. left. reflexivity.
    + exfalso. apply Hno. rewrite Forall_forall in Hall'. apply Hall', Hx.
Qed.

Lemma reported_hazard_lookup_sample :
  hazard_row (db (sample_world sample_db)) (sample_uuid 0) = None
  /\ exists h,
       fst (get_hazard_by_id (sample_uuid 0)
              (snd (report_endpoint (sample_report None) (sample_world sample_db))))
       = Ok (Some h)
       /\ Hazard.status h = PENDING_AUTHORITY.
Proof.
  split; [reflexivity|].
  destruct (report_endpoint (sample_report None) (sample_world sample_db))
    as [[ack|e] w'] eqn:Hrun.
  - destruct (reported_hazard_can_be_looked_up
                (sample_world sample_db) w' (sample_report None) ack Hrun eq_refl)
      as [h [Hget [Hid [Hst _]]]].
    exists h. cbn [snd].
    assert (Hack : ack_hazard_id ack = sample_uuid 0).
    { destruct (report_endpoint_ok_inv _ _ _ _ Hrun) as [observed [_ [_ Hack]]].
      exact Hack. }
    rewrite <- Hack, Hget. split; [reflexivity | exact Hst].
  - exfalso. revert Hrun. cbv. discriminate.
Defined.

(** ** Transitions, as the code serves them *)

Lemma get_current_authority_cases (jwt_decode : string -> JwtOutcome) (w : World)
    (credentials : string) :
  (exists a, get_current_authority jwt_decode credentials w = (Ok a, w))
  \/ (exists detail,
        get_current_authority jwt_decode credentials w
        = (Raise (HTTPException HTTP_401_UNAUTHORIZED detail), w)).
Proof.
  unfold get_current_authority, decode_access_token, query_authority_first,
    bind, ret, raise, get_db.
  destruct (jwt_decode credentials) as [p| |]; cbn.
  - destruct (payload_get "authority_id" p) as [authority_id|]; cbn.
    + destruct (find _ (authorities (db w))) as [a|]; cbn.
      * left. eexists. reflexivity.
      * right. eexists. reflexivity.
    + right. eexists. reflexivity.
  - right. eexists. reflexivity.
  - right. eexists. reflexivity.
Qed.

(** X26. No transition request ever succeeds, and none writes: for every
    token decoder, state, action, bearer token, hazard id and request
    body, the verify, reject and resolve routes raise and leave the whole
    state as it was. The answer is HTTP 401 from the authentication, HTTP
    404 when no hazard has the id, LookupError when the hazard's stored
    type cannot be read, and otherwise the HTTP 400 of the status guard,
    which names the status by its qualified name. *)
Theorem transition_requests_never_succeed :
  forall (jwt_decode : string -> JwtOutcome) (w : World) (action : AuthorityAction)
         (credentials hazard_id : string)
         (request : Schemas.AuthorityVerificationRequest),
    exists e,
      transition_endpoint jwt_decode action credentials hazard_id request w
      = (Raise e, w)
      /\ ((exists detail, e = HTTPException HTTP_401_UNAUTHORIZED detail)
          \/ (hazard_row (db w) hazard_id = None
              /\ e = HTTPException HTTP_404_NOT_FOUND
                       ("Hazard " ++ hazard_id ++ " not found"))
          \/ (exists h,
                hazard_row (db w) hazard_id = Some h
                /\ ((~ loadable h /\ e = LookupError (Hazard.hazard_type h))
                    \/ (loadable h
                        /\ e = HTTPException HTTP_400_BAD_REQUEST
                                 ("Hazard is in " ++ HazardStatus_str (Hazard.status h)
                                  ++ refusal_suffix action))))).
Proof.
  intros jwt_decode w action credentials hazard_id request.
  unfold transition_endpoint, bind.
  destruct (get_current_authority_cases jwt_decode w credentials)
    as [[a Hauth]|[detail Hauth]]; rewrite Hauth.
  - destruct (perform_outcome w action hazard_id request a) as [e [Hrun Hwhat]].
    exists e. split; [exact Hrun|]. right.
    destruct (hazard_row (db w) hazard_id) as [h|].
    + right. exists h. split; [reflexivity|]. unfold loadable.
      destruct (HazardType_lookup (Hazard.hazard_type h)) as [t|].
      * right. split; [exists t; reflexivity | exact Hwhat].
      * left. split; [intros [t Ht]; discriminate Ht | exact Hwhat].
    + left. split; [reflexivity | exact Hwhat].
  - eexists. split; [reflexivity|]. left. exists detail. reflexivity.
Qed.

(** ** What drivers can see over time *)

Lemma mapM_load_hazard_pure (rows : list Hazard.t) :
  exists r, forall w, mapM load_hazard rows w = (r, w).
Proof.
  induction rows as [|h rows [r IH]]; cbn [mapM].
  - eexists. intros w. reflexivity.
  - unfold bind, load_hazard, ret, raise.
    destruct (HazardType_lookup (Hazard.hazard_type h)).
    + destruct r as [objs|e]; eexists; intros w; rewrite IH; reflexivity.
    + eexists. intros w. reflexivity.
Qed.

(** The answer of GET /hazards/verified is a function of the limit and of
    the VERIFIED rows. *)
Lemma driver_listing_pure (limit : Z) (rows : list Hazard.t) :
  exists r, forall w,
    verified_rows (db w) = rows ->
    get_verified_hazards_for_driver limit w = (r, w).
Proof.
  destruct (mapM_load_hazard_pure (limit_rows limit (order_by_created_at_desc rows)))
    as [r Hload].
  unfold get_verified_hazards_for_driver, bind, get_db, sql_limit, ret, raise.
  destruct ((limit <? INT64_MIN) || (INT64_MAX <? limit)).
  - eexists. intros w _. reflexivity.
  - destruct r as [objs|e]; eexists; intros w Hw;
      fold (verified_rows (db w)); rewrite Hw, Hload; reflexivity.
Qed.

Lemma handle_verified_rows (r : Request) (w : World) :
  verified_rows (db (handle r w)) = verified_rows (db w).
Proof.
  destruct (handle_cases r w) as [_ [_ [_ [Hsame|[body [observed [extra [_ Hw]]]]]]]].
  - rewrite Hsame. reflexivity.
  - rewrite Hw. unfold verified_rows. cbn [reported_world db hazards].
    rewrite filter_app. cbn [filter reported_hazard Hazard.status HazardStatus_eqb].
    apply app_nil_r.
Qed.

(** X27. What drivers are shown never changes: after any sequence of
    reports, transition requests and token redemptions the VERIFIED rows
    are the rows that were VERIFIED at the start, so GET /hazards/verified
    answers as it did before, for every limit. No reported hazard is ever
    shown to a driver and no shown hazard is ever withdrawn. *)
Theorem driver_listing_is_never_changed_by_requests :
  forall (requests : list Request) (w : World) (limit : Z),
    verified_rows (db (handle_all requests w)) = verified_rows (db w)
    /\ fst (get_verified_hazards_for_driver limit (handle_all requests w))
       = fst (get_verified_hazards_for_driver limit w).
Proof.
  intros requests w limit.
  assert (Hrows : verified_rows (db (handle_all requests w)) = verified_rows (db w)).
  { revert w. induction requests as [|r requests IH]; intros w; [reflexivity|].
    rewrite handle_all_cons, IH. apply handle_verified_rows. }
  split; [exact Hrows|].
  destruct (driver_listing_pure limit (verified_rows (db w))) as [r Hr].
  rewrite (Hr _ Hrows), (Hr w eq_refl). reflexivity.
Qed.

(** X28. Stored hazards are never rewritten: after any sequence of
    requests the hazards table is the table it was, row for row, followed
    by the hazards reported since, at most one per report request, each of
    them PENDING_AUTHORITY with an observation time and a null resolved_at;
    and the audit log is the log it was. *)
Theorem hazard_rows_are_never_rewritten :
  forall (requests : list Request) (w : World),
    exists added,
      hazards (db (handle_all requests w)) = (hazards (db w) ++ added)%list
      /\ (List.length added <= report_requests requests)%nat
      /\ Forall (fun h => Hazard.status h = PENDING_AUTHORITY
                          /\ Hazard.observed_at h <> None
                          /\ Hazard.resolved_at h = None) added
      /\ audit_logs (db (handle_all requests w)) = audit_logs (db w).
Proof.
  induction requests as [|r requests IH]; intros w.
  - exists []. rewrite app_nil_r. repeat split; [apply Nat.le_refl | constructor].
  - rewrite handle_all_cons.
    destruct (IH (handle r w)) as [added [Hrows [Hlen [Hall Hlog]]]].
    destruct (handle_cases r w) as [_ [_ [_ Hdb]]].
    destruct Hdb as [Hsame|[body [observed [extra [Hr Hw]]]]].
    + exists added. rewrite Hrows, Hlog, Hsame. repeat split; [|exact Hall].
      unfold report_requests in *. cbn [filter]. destruct r; cbn [List.length]; lia.
    + exists (reported_hazard w body observed :: added).
      rewrite Hrows, Hlog, Hw. cbn [reported_world db hazards audit_logs].
      rewrite <- app_assoc. split; [reflexivity|]. split; [|split; [|reflexivity]].
      * subst r. unfold report_requests in *. cbn [filter List.length]. lia.
      * constructor; [|exact Hall].
        cbn [reported_hazard Hazard.status Hazard.observed_at Hazard.resolved_at].
        repeat split. discriminate.
Qed.

(** X29. A report of a type that only [schemas.HazardType] has: on the
    sample database a DEBRIS report passes validation, is committed as a
    PENDING_AUTHORITY hazard and is then answered with LookupError. From
    then on the row stops every query that fetches it: the triage queue
    and the unfiltered authority listing raise LookupError, and Verify on
    the new hazard raises it too, while the driver listing, which selects
    VERIFIED rows only, still answers. *)
Theorem unknown_type_report_is_committed_and_stops_the_queues :
  let w := sample_world sample_db in
  let w1 := snd (report_endpoint sample_debris_report w) in
  let a1 := sample_authority "a1" STATE true in
  fst (report_endpoint sample_debris_report w) = Raise (LookupError "DEBRIS")
  /\ option_map Hazard.status (hazard_row (db w1) "uuid-0") = Some PENDING_AUTHORITY
  /\ option_map Hazard.hazard_type (hazard_row (db w1) "uuid-0") = Some "DEBRIS"
  /\ List.length (hazards (db w1)) = S (List.length (hazards (db w)))
  /\ get_pending_hazards w1 = (Raise (LookupError "DEBRIS"), w1)
  /\ get_hazards_for_authority None a1 100 w1 = (Raise (LookupError "DEBRIS"), w1)
  /\ verify_hazard "uuid-0" no_notes a1 w1 = (Raise (LookupError "DEBRIS"), w1)
  /\ fst (get_verified_hazards_for_driver 100 w1)
     = Ok [sample_hazard "h4" VERIFIED 400; sample_hazard "h2" VERIFIED 200].
Proof.
  cbv zeta. repeat split; vm_compute; reflexivity.
Qed.

